(** * WhatsApp voice agent: knowledge loader, call-summary hook,
      bot assembler and webhook server

    A shallow embedding of [knowledge.py], [hooks.py], [bot.py] and
    [server.py].  Python [str] values are sequences of Unicode code
    points; the disk, the clock, the network and the logger are fields
    of an explicit [world] that the code threads through a small
    state-and-exception monad. *)

From Stdlib Require Import Strings.String Strings.Ascii.
From stdpp Require Import base option list gmap sorting.

Set Default Proof Using "Type".

(** ** Python values *)

Module Py.

(** A Python [str]: a list of code points. *)
Definition char := N.
Definition str := list N.

(** A source literal written in ASCII. *)
Definition lit (x : string) : str := N_of_ascii <$> list_ascii_of_string x.
Arguments lit x%_string.

Definition nl : str := [10%N].
Definition dquote : str := [34%N].

(** [str.isspace] for one character (the Unicode white-space set of
    CPython's [_PyUnicode_IsWhitespace]). *)
Definition in_range (lo hi c : N) : bool := ((lo <=? c) && (c <=? hi))%N.

Definition isspace (c : char) : bool :=
  in_range 9 13 c || in_range 28 32 c
  || in_range 133 133 c || in_range 160 160 c || in_range 5760 5760 c
  || in_range 8192 8202 c
  || in_range 8232 8233 c || in_range 8239 8239 c || in_range 8287 8287 c
  || in_range 12288 12288 c.

Fixpoint lstrip (s : str) : str :=
  match s with
  | [] => []
  | c :: s' => if isspace c then lstrip s' else s
  end.

Definition rstrip (s : str) : str := reverse (lstrip (reverse s)).

(** [s.strip()] *)
Definition strip (s : str) : str := rstrip (lstrip s).

(** [sep.join(xs)] *)
Fixpoint join (sep : str) (xs : list str) : str :=
  match xs with
  | [] => []
  | [x] => x
  | x :: rest => x ++ sep ++ join sep rest
  end.

(** [s.rfind(c)] for a single character, [None] for -1. *)
Fixpoint rfind (c : char) (s : str) : option nat :=
  match s with
  | [] => None
  | d :: s' =>
      match rfind c s' with
      | Some i => Some (S i)
      | None => if (d =? c)%N then Some 0 else None
      end
  end.

(** Truthiness of a string: [if s:] *)
Definition truthy (s : str) : bool :=
  match s with [] => false | _ => true end.

(** [a or b] on strings *)
Definition or_else (a b : str) : str := if truthy a then a else b.

(** The order of [str.__lt__] / [str.__le__]: lexicographic on code
    points. *)
Fixpoint str_leb (a b : str) : bool :=
  match a, b with
  | [], _ => true
  | _ :: _, [] => false
  | x :: a', y :: b' =>
      if (x <? y)%N then true
      else if (y <? x)%N then false
      else str_leb a' b'
  end.

Definition str_le (a b : str) : Prop := str_leb a b = true.

Global Instance str_le_dec (a b : str) : Decision (str_le a b) :=
  decide (str_leb a b = true).

(** Exceptions the code can meet, all of them instances of
    [Exception]: [ValueError] stands for the class and its subclasses,
    [OtherException] for every other subclass.  What is raised outside
    [Exception] (the cancellation of a coroutine, a keyboard interrupt)
    is not part of the model. *)
Inductive exn :=
| ValueError (msg : str)
| HTTPException (status_code : Z) (detail : str)
| OtherException (msg : str).

(** [isinstance(e, ValueError)] *)
Definition is_ValueError (e : exn) : bool :=
  match e with ValueError _ => true | _ => false end.

(** [str(e)] *)
Definition exn_str (e : exn) : str :=
  match e with
  | ValueError m => m
  | HTTPException _ d => d
  | OtherException m => m
  end.

(** [None] or a string, the values the call metadata holds. *)
Inductive pyval :=
| PyNone
| PyStr (s : str).

End Py.
Export Py.

(** ** pathlib *)

Module Pathlib.

(** [PurePath.stem]: the name without its last suffix; a name has a
    suffix when its last dot is neither its first nor its last
    character. *)
Definition stem (name : str) : str :=
  match rfind 46%N name with
  | Some i =>
      if (0 <? i)%nat && (i <? length name - 1)%nat then take i name else name
  | None => name
  end.

(** What [read_text(encoding="utf-8")] does on a directory entry. *)
Inductive dir_entry :=
| Readable (text : str)
| Unreadable (e : exn).

(** What is found at [KNOWLEDGE_DIR]: nothing, something that is not a
    directory (globbing it lists nothing), or a directory with its
    entries by name. *)
Inductive fs_node :=
| Missing
| NotADirectory
| Directory (files : gmap str dir_entry).

(** [path.exists()] *)
Definition exists_ (n : fs_node) : bool :=
  match n with Missing => false | _ => true end.

(** The pattern [*.md] on a name, letter case counting. *)
Definition matches_md (name : str) : bool :=
  bool_decide (lit ".md" `suffix_of` name).

(** [path.glob("*.md")]: the matching names, in the order the
    directory lists them. *)
Definition glob_md (n : fs_node) : list str :=
  match n with
  | Directory files => filter (λ name, matches_md name = true) (map_to_list files).*1
  | _ => []
  end.

(** [sorted(paths)]: paths of one directory compare by name. *)
Definition sorted (names : list str) : list str := merge_sort str_le names.

(** [md_file.read_text(encoding="utf-8")] *)
Definition read_text (n : fs_node) (name : str) : exn + str :=
  match n with
  | Directory files =>
      match files !! name with
      | Some (Readable text) => inr text
      | Some (Unreadable e) => inl e
      | None => inl (OtherException (lit "No such file or directory"))
      end
  | _ => inl (OtherException (lit "Not a directory"))
  end.

End Pathlib.
Export Pathlib.


(** ** Effects: state passing with exceptions *)

Module Eff.

Inductive outcome (A : Type) :=
| Return (a : A)
| Raise (e : exn).
Arguments Return {A} a.
Arguments Raise {A} e.

(** A computation over a state [S]: it returns or raises, and in both
    cases leaves a state behind. *)
Definition M (S A : Type) : Type := S → outcome A * S.

Definition ret {S A} (a : A) : M S A := λ s, (Return a, s).
Definition raise {S A} (e : exn) : M S A := λ s, (Raise e, s).

Definition bind {S A B} (c : M S A) (k : A → M S B) : M S B :=
  λ s, match c s with
       | (Return a, s') => k a s'
       | (Raise e, s') => (Raise e, s')
       end.

(** [try: body except Exception as e: handler(e)] *)
Definition try_except {S A} (body : M S A) (handler : exn → M S A) : M S A :=
  λ s, match body s with
       | (Return a, s') => (Return a, s')
       | (Raise e, s') => handler e s'
       end.

Definition gets {S A} (f : S → A) : M S A := λ s, (Return (f s), s).
Definition modify {S} (f : S → S) : M S unit := λ s, (Return tt, f s).

(** Run a computation on a part of the state. *)
Definition zoom {S T A} (get : S → T) (set : T → S → S) (c : M T A) : M S A :=
  λ s, match c (get s) with (r, t') => (r, set t' s) end.

(** [for x in xs: acc = body(x, acc)] *)
Fixpoint for_each {S A B} (xs : list A) (body : A → B → M S B) (acc : B) : M S B :=
  match xs with
  | [] => ret acc
  | x :: rest => bind (body x acc) (for_each rest body)
  end.

End Eff.
Export Eff.

Notation "'let!' x ':=' c 'in' k" := (bind c (λ x, k))
  (at level 10, x name, c at level 100, k at level 200).
Notation "c '>>' k" := (bind c (λ _, k))
  (at level 100, k at level 200, right associativity).

(** ** The world outside the process *)

Module World.

Inductive level := TRACE | DEBUG | INFO | WARNING | ERROR.

(** One constructor per logging call of the sources, with the values
    its message interpolates. *)
Inductive log_msg :=
| KnowledgeDirNotFound
| LoadedKnowledge (name : str) (chars : nat)
| FailedToRead (name : str) (e : exn)
| NoKnowledgeDocs
| LoadedDocs (docs chars : nat)
| HookUrlNotSet
| SummarySent (status : Z)
| HookReturned (status : Z) (body : str)
| FailedToSendSummary (e : exn)
| CallConnected
| CallDisconnected
| SummaryHookRaised (e : exn)
| KnowledgeLoaded (chars : nat)
| ClientInitialized
| WebhookReceived (object_ : str)
| AutoAccepted (pc_id : str)
| FailedToStartBot (e : exn)
| InvalidWebhook (e : exn)
| WebhookProcessingError (e : exn).

(** An outbound [session.post(url, json=..., timeout=ClientTimeout(total=...))];
    the JSON object keeps the order of its keys. *)
Record http_request := HttpRequest {
  url : str;
  json : list (str * pyval);
  timeout_total : Z;
}.

(** What comes back: a response with its status, whose body can be read
    or not, or an exception from the client library. *)
Inductive http_reply :=
| Response (status : Z) (text : exn + str)
| Failure (e : exn).

Record world := World {
  knowledge_dir : fs_node;             (* what is on disk at KNOWLEDGE_DIR *)
  utcnow : str;                        (* datetime.now(utc).isoformat() *)
  network : http_request → http_reply; (* how a POST is answered *)
  posted : list http_request;          (* the POSTs made so far *)
  logged : list (level * log_msg);     (* loguru's sink *)
}.

Definition log (l : level) (m : log_msg) : M world unit :=
  modify (λ w, World (knowledge_dir w) (utcnow w) (network w) (posted w)
                     (logged w ++ [(l, m)])).

Definition post (r : http_request) : M world http_reply :=
  λ w, (Return (network w r),
        World (knowledge_dir w) (utcnow w) (network w) (posted w ++ [r]) (logged w)).

Definition set_knowledge_dir (n : fs_node) (w : world) : world :=
  World n (utcnow w) (network w) (posted w) (logged w).

Definition set_utcnow (t : str) (w : world) : world :=
  World (knowledge_dir w) t (network w) (posted w) (logged w).

End World.
Export World.

(** ** knowledge.py *)

Module Knowledge.

Section loader.
(** [str.upper], whose Unicode case tables are the interpreter's. *)
Variable upper : str → str.

(** [f"--- {md_file.stem.upper()} ---\n{content}"] *)
Definition document (md_file content : str) : str :=
  lit "--- " ++ upper (stem md_file) ++ lit " ---" ++ nl ++ content.

Definition read_text_m (md_file : str) : M world str :=
  λ w, match read_text (knowledge_dir w) md_file with
       | inr text => (Return text, w)
       | inl e => (Raise e, w)
       end.

(** The body of the [for] loop, lines 29-35. *)
Definition load_file (md_file : str) (documents : list str) : M world (list str) :=
  try_except
    (let! text := read_text_m md_file in
     let content := strip text in
     if truthy content then
       let documents := documents ++ [document md_file content] in
       log DEBUG (LoadedKnowledge md_file (length content)) >>
       ret documents
     else ret documents)
    (λ e, log ERROR (FailedToRead md_file e) >> ret documents).

Definition load_knowledge : M world str :=
  let! dir := gets knowledge_dir in
  if negb (exists_ dir) then
    log WARNING KnowledgeDirNotFound >> ret []
  else
    let! documents := for_each (sorted (glob_md dir)) load_file [] in
    match documents with
    | [] => log WARNING NoKnowledgeDocs >> ret []
    | _ =>
        let combined := join (nl ++ nl) documents in
        log INFO (LoadedDocs (length documents) (length combined)) >>
        ret combined
    end.

(** What a call of [load_knowledge()] in the world [w] comes to. *)
Definition loaded (w : world) : outcome str := fst (load_knowledge w).

End loader.

End Knowledge.
Export Knowledge.

(** ASCII case mapping, the restriction of [str.upper] used in the
    examples. *)
Definition ascii_upper (s : str) : str :=
  (λ c, if in_range 97 122 c then (c - 32)%N else c) <$> s.

Definition disk (n : fs_node) : world :=
  World n [] (λ _, Failure (OtherException [])) [] [].


(** ** What the loader is meant to return *)

Module KnowledgeSpec.

Section spec.
Variable upper : str → str.

(** The header line of a file: its name, without [.md], in upper case
    between dashes. *)
Definition header (name : str) : str :=
  lit "--- " ++ upper (stem name) ++ lit " ---".

(** A file's block: the header, then the trimmed content. *)
Definition block (p : str * str) : str := header p.1 ++ nl ++ p.2.

(** What a listed name contributes: itself and its trimmed content,
    when the file can be read and something is left after trimming. *)
Definition contribution (n : fs_node) (name : str) : option (str * str) :=
  match read_text n name with
  | inr text => if truthy (strip text) then Some (name, strip text) else None
  | inl _ => None
  end.

(** The files that count, in the order of their names. *)
Definition kept (n : fs_node) : list (str * str) :=
  omap (contribution n) (sorted (glob_md n)).

(** Blocks separated by one blank line. *)
Definition combined (n : fs_node) : str := join (nl ++ nl) (block <$> kept n).

End spec.

(** A name in a directory is skipped when it cannot be read or when
    nothing is left of its text after trimming. *)
Definition skipped (e : dir_entry) : Prop :=
  match e with
  | Readable text => strip text = []
  | Unreadable _ => True
  end.

(** A node from which no document comes. *)
Definition yields_nothing (n : fs_node) : Prop :=
  match n with
  | Missing | NotADirectory => True
  | Directory files =>
      ∀ name e, matches_md name = true → files !! name = Some e → skipped e
  end.

End KnowledgeSpec.
Export KnowledgeSpec.


(** ** What the notifier is meant to send *)

Module HooksSpec.

(** The call-ended request: the three fields, a timeout of ten
    seconds. *)
Definition call_ended_request (destination : str) (connected_at disconnected_at : pyval)
  : http_request :=
  {| url := destination;
     json := [ (lit "event", PyStr (lit "call_ended"));
               (lit "connected_at", connected_at);
               (lit "disconnected_at", disconnected_at) ];
     timeout_total := 10 |}.

(** The POST fails with [e]: the client library raises [e], or the
    status is not 200 and reading the body raises [e]. *)
Definition post_fails (reply : http_reply) (e : exn) : Prop :=
  match reply with
  | Failure e' => e' = e
  | Response status (inl e') => status ≠ 200%Z ∧ e' = e
  | Response _ (inr _) => False
  end.

End HooksSpec.
Export HooksSpec.

(** ** hooks.py *)

Module Hooks.

(** [d.get(k)] *)
Definition dict_get (d : gmap str pyval) (k : str) : pyval :=
  default PyNone (d !! k).

(** [session.post(...)] entered as a context manager: the request goes
    out, and either a response comes back or the client library
    raises. *)
Definition session_post (r : http_request) : M world (Z * (exn + str)) :=
  let! reply := post r in
  match reply with
  | Response status text => ret (status, text)
  | Failure e => raise e
  end.

(** [await resp.text()] *)
Definition resp_text (text : exn + str) : M world str :=
  match text with
  | inr body => ret body
  | inl e => raise e
  end.

Section hook.
(** [os.getenv("N8N_CALL_HOOK_URL", "")] *)
Variable N8N_CALL_HOOK_URL : str.

Definition send_call_summary (call_metadata : gmap str pyval) : M world unit :=
  if negb (truthy N8N_CALL_HOOK_URL) then
    log DEBUG HookUrlNotSet >> ret tt
  else
    let payload :=
      [ (lit "event", PyStr (lit "call_ended"));
        (lit "connected_at", dict_get call_metadata (lit "connected_at"));
        (lit "disconnected_at", dict_get call_metadata (lit "disconnected_at")) ] in
    try_except
      (let! resp := session_post (HttpRequest N8N_CALL_HOOK_URL payload 10) in
       if (resp.1 =? 200)%Z then
         log INFO (SummarySent resp.1)
       else
         let! body := resp_text resp.2 in
         log WARNING (HookReturned resp.1 body))
      (λ e, log ERROR (FailedToSendSummary e)).

End hook.

End Hooks.
Export Hooks.

(** ** bot.py *)

Module Bot.

(** [str.format] with keyword arguments, for templates whose
    replacement fields are plain names. *)
Definition map_inr {E A B} (f : A → B) (r : E + A) : E + B :=
  match r with
  | inr a => inr (f a)
  | inl e => inl e
  end.

Fixpoint kwarg (kwargs : list (str * str)) (name : str) : option str :=
  match kwargs with
  | [] => None
  | (k, v) :: rest => if decide (k = name) then Some v else kwarg rest name
  end.

Fixpoint format_from (field : option str) (kwargs : list (str * str)) (s : str)
  : exn + str :=
  match s with
  | [] =>
      match field with
      | None => inr []
      | Some _ => inl (ValueError (lit "expected '}' before end of string"))
      end
  | c :: rest =>
      match field with
      | Some name =>
          if (c =? 125)%N then
            match kwarg kwargs name with
            | Some v => map_inr (app v) (format_from None kwargs rest)
            | None => inl (OtherException name)
            end
          else format_from (Some (name ++ [c])) kwargs rest
      | None =>
          if (c =? 123)%N then
            match rest with
            | d :: rest' =>
                if (d =? 123)%N then map_inr (cons 123%N) (format_from None kwargs rest')
                else format_from (Some []) kwargs rest
            | [] => inl (ValueError (lit "Single '{' encountered in format string"))
            end
          else if (c =? 125)%N then
            match rest with
            | d :: rest' =>
                if (d =? 125)%N then map_inr (cons 125%N) (format_from None kwargs rest')
                else inl (ValueError (lit "Single '}' encountered in format string"))
            | [] => inl (ValueError (lit "Single '}' encountered in format string"))
            end
          else map_inr (cons c) (format_from None kwargs rest)
      end
  end.

(** [template.format(name=value, ...)] *)
Definition format (template : str) (kwargs : list (str * str)) : exn + str :=
  format_from None kwargs template.

(** The prompt template, lines 29-43. *)
Definition AGENT_RULES : str :=
  lit "You are an AI voice assistant for Institute of Financial Studies (IFS), Jaipur." ++ nl ++
  nl ++
  lit "IMPORTANT RULES:" ++ nl ++
  lit "- You are answering a live phone call. Keep responses brief (1-3 sentences)." ++ nl ++
  lit "- Speak naturally like a helpful receptionist, not like a chatbot." ++ nl ++
  lit "- Respond in the SAME LANGUAGE the caller speaks (Hindi or English)." ++ nl ++
  lit "- Only answer from the knowledge provided below. Never make up information." ++ nl ++
  lit "- If you don't know something, say: " ++ dquote ++ lit "I would be happy to connect you with our admissions team for more details. You can also reach us at our office number." ++ dquote ++ nl ++
  lit "- Do not use special characters, emojis, or markdown in your responses (output is converted to speech)." ++ nl ++
  lit "- Be warm, professional, and helpful." ++ nl ++
  lit "- If the caller wants to speak to a human, say: " ++ dquote ++ lit "I will let our team know. Someone will call you back shortly." ++ dquote ++ nl ++
  nl ++
  lit "YOUR KNOWLEDGE:" ++ nl ++
  lit "{knowledge}" ++ nl.

Definition NO_KNOWLEDGE : str := lit "No knowledge documents loaded yet.".

(** The caller's connection, an object of the WebRTC library:
    its identifier and what awaiting [disconnect()] does. *)
Record SmallWebRTCConnection := Connection {
  pc_id : str;
  disconnect_raises : option exn;
}.

Record TransportParams := {
  audio_in_enabled : bool;
  audio_out_enabled : bool;
  audio_out_10ms_chunks : Z;
}.

Record SmallWebRTCTransport := {
  webrtc_connection : SmallWebRTCConnection;
  params : TransportParams;
}.

Record GeminiLiveLLMService := {
  api_key : option str;
  voice_id : str;
  system_instruction : str;
}.

(** One message of an [LLMContext]. *)
Record message := { role : str; content : str }.

Inductive vad_analyzer := SileroVADAnalyzer.

(** The processors the pipeline is made of. *)
Inductive processor :=
| TransportInput (t : SmallWebRTCTransport)
| UserAggregator (context : list message) (vad : vad_analyzer)
| LLMService (llm : GeminiLiveLLMService)
| TransportOutput (t : SmallWebRTCTransport)
| AssistantAggregator (context : list message).

Record PipelineTask := {
  pipeline : list processor;
  enable_metrics : bool;
  enable_usage_metrics : bool;
}.

Inductive frame := LLMRunFrame.

(** What changes while a call runs: the metadata dictionary shared by
    the two handlers, the frames queued on the task, whether the task
    was cancelled, and the world outside. *)
Record call := Call {
  call_metadata : gmap str pyval;
  queued : list frame;
  cancelled : bool;
  outside : world;
}.

Definition set_outside (w : world) (c : call) : call :=
  Call (call_metadata c) (queued c) (cancelled c) w.

(** Run a computation of the outside world within a call. *)
Definition outward {A} (m : M world A) : M call A := zoom outside set_outside m.

(** [call_metadata[k] = v] *)
Definition metadata_set (k : str) (v : pyval) : M call unit :=
  modify (λ c, Call (<[k := v]> (call_metadata c)) (queued c) (cancelled c) (outside c)).

(** [await task.queue_frames(fs)] *)
Definition queue_frames (fs : list frame) : M call unit :=
  modify (λ c, Call (call_metadata c) (queued c ++ fs) (cancelled c) (outside c)).

(** [await task.cancel()] *)
Definition task_cancel : M call unit :=
  modify (λ c, Call (call_metadata c) (queued c) true (outside c)).

(** [datetime.datetime.now(datetime.timezone.utc).isoformat()] *)
Definition now_isoformat : M call str := gets (λ c, utcnow (outside c)).

(** The handler of [on_client_connected], lines 108-112. *)
Definition on_connected : M call unit :=
  let! t := now_isoformat in
  metadata_set (lit "connected_at") (PyStr t) >>
  outward (log INFO CallConnected) >>
  queue_frames [LLMRunFrame].

(** The handler of [on_client_disconnected], lines 115-125, for any
    notifier in the place of [send_call_summary]. *)
Definition on_disconnected_with (notifier : gmap str pyval → M call unit) : M call unit :=
  let! t := now_isoformat in
  metadata_set (lit "disconnected_at") (PyStr t) >>
  outward (log INFO CallDisconnected) >>
  task_cancel >>
  try_except
    (let! md := gets call_metadata in notifier md)
    (λ e, outward (log ERROR (SummaryHookRaised e))).

(** What [run_bot] has built when it hands the task to the runner. *)
Record bot := {
  transport : SmallWebRTCTransport;
  llm : GeminiLiveLLMService;
  context : list message;
  task : PipelineTask;
  initial_metadata : gmap str pyval;
  handlers : list (str * M call unit);
}.

Section run_bot.
(** [os.getenv("GOOGLE_API_KEY")] and [N8N_CALL_HOOK_URL] *)
Variable GOOGLE_API_KEY : option str.
Variable N8N_CALL_HOOK_URL : str.

Definition on_disconnected : M call unit :=
  on_disconnected_with (λ md, outward (send_call_summary N8N_CALL_HOOK_URL md)).

(** Lines 49-125 of [run_bot]; [knowledge_context] is [None] when the
    caller leaves the argument out.  The result is an exception when
    formatting the prompt raises. *)
Definition run_bot (webrtc_connection : SmallWebRTCConnection)
    (knowledge_context : option str) : exn + bot :=
  let knowledge_context := default [] knowledge_context in
  match format AGENT_RULES [(lit "knowledge", or_else knowledge_context NO_KNOWLEDGE)] with
  | inl e => inl e
  | inr system_instruction =>
      let transport :=
        {| webrtc_connection := webrtc_connection;
           params := {| audio_in_enabled := true;
                        audio_out_enabled := true;
                        audio_out_10ms_chunks := 2 |} |} in
      let llm :=
        {| api_key := GOOGLE_API_KEY;
           voice_id := lit "Kore";
           system_instruction := system_instruction |} in
      let context :=
        [ {| role := lit "user";
             content := lit "A customer is calling IFS. Greet them warmly and ask how you can help." |} ] in
      let user_aggregator := UserAggregator context SileroVADAnalyzer in
      let assistant_aggregator := AssistantAggregator context in
      let pipeline :=
        [ TransportInput transport;
          user_aggregator;
          LLMService llm;
          TransportOutput transport;
          assistant_aggregator ] in
      let task :=
        {| pipeline := pipeline;
           enable_metrics := true;
           enable_usage_metrics := true |} in
      let call_metadata : gmap str pyval :=
        {[ lit "connected_at" := PyNone; lit "disconnected_at" := PyNone ]} in
      inr {| transport := transport;
             llm := llm;
             context := context;
             task := task;
             initial_metadata := call_metadata;
             handlers := [ (lit "on_client_connected", on_connected);
                           (lit "on_client_disconnected", on_disconnected) ] |}
  end.

End run_bot.

(** The state in which the runner starts a call. *)
Definition start_call (b : bot) (w : world) : call :=
  Call (initial_metadata b) [] false w.

(** The transport emits an event: the handlers registered under its
    name run in order. *)
Fixpoint emit_to (hs : list (str * M call unit)) (event : str) : M call unit :=
  match hs with
  | [] => ret tt
  | (name, h) :: rest =>
      if decide (name = event) then h >> emit_to rest event
      else emit_to rest event
  end.

Definition emit (b : bot) (event : str) : M call unit := emit_to (handlers b) event.

End Bot.
Export Bot.

(** ** Worlds used in the examples *)

(** A world in which every POST dies with a connection error. *)
Definition unreachable : world :=
  World Missing (lit "2026-01-01T10:05:00+00:00")
        (λ _, Failure (OtherException (lit "Cannot connect to host")))
        [] [].


(** ** What the bot is meant to build *)

Module BotSpec.

(** The kinds of stage a pipeline can hold. *)
Inductive stage :=
| InputTransport
| UserTurnAggregator
| HostedLLM
| OutputTransport
| AssistantTurnAggregator.

Definition stage_of (p : processor) : stage :=
  match p with
  | TransportInput _ => InputTransport
  | UserAggregator _ _ => UserTurnAggregator
  | LLMService _ => HostedLLM
  | TransportOutput _ => OutputTransport
  | AssistantAggregator _ => AssistantTurnAggregator
  end.

(** The template up to its knowledge slot; after the slot comes one
    line feed. *)
Definition RULES_BEFORE : str :=
  take (length AGENT_RULES - length (lit "{knowledge}" ++ nl)) AGENT_RULES.

(** A character of a template that is not a brace. *)
Definition plain (c : char) : Prop := c ≠ 123%N ∧ c ≠ 125%N.

(** The prompt of a bot that was built. *)
Definition prompt_of (r : exn + bot) : option str :=
  match r with
  | inr b => Some (system_instruction (llm b))
  | inl _ => None
  end.

(** The call as the notifier finds it on a disconnect: the time of the
    disconnect is in the metadata, the disconnect is logged, the task
    is cancelled. *)
Definition ready_to_notify (c : call) : call :=
  Call (<[lit "disconnected_at" := PyStr (utcnow (outside c))]> (call_metadata c))
       (queued c) true
       (log INFO CallDisconnected (outside c)).2.

End BotSpec.
Export BotSpec.

(** ** server.py *)

Module Server.

(** The parsed body of a webhook POST.  The call events in [entry] have
    the shape the client library defines. *)
Record WhatsAppWebhookRequest := {
  object_ : str;
  entry : list str;
}.

(** [background_tasks.add_task(run_bot, connection, current_knowledge)] *)
Inductive background_task :=
| RunBot (connection : SmallWebRTCConnection) (knowledge : str).

(** What the client library does inside [handle_webhook_request]: it
    accepts calls, awaiting the callback on each connection, while the
    knowledge directory can be edited under it; in the end it returns
    or raises. *)
Inductive client_step :=
| Accepts (connection : SmallWebRTCConnection)
| DiskChanges (n : fs_node).

Record client_run := {
  steps : list client_step;
  raises : option exn;
}.

Record server := Server {
  knowledge_context : str;                 (* the module global *)
  whatsapp_client : option (WhatsAppWebhookRequest → client_run);
                                           (* the module global, with what the
                                              client does on a request *)
  add_task_raises : background_task → option exn;
                                           (* whether scheduling fails *)
  client_calls : list WhatsAppWebhookRequest;
                                           (* calls of handle_webhook_request *)
  background_tasks : list background_task; (* the BackgroundTasks of the request *)
  hung_up : list SmallWebRTCConnection;    (* connections asked to disconnect *)
  env : world;
}.

Definition set_env (w : world) (s : server) : server :=
  Server (knowledge_context s) (whatsapp_client s) (add_task_raises s)
         (client_calls s) (background_tasks s) (hung_up s) w.

Definition set_knowledge_context (k : str) (s : server) : server :=
  Server k (whatsapp_client s) (add_task_raises s)
         (client_calls s) (background_tasks s) (hung_up s) (env s).

Definition set_whatsapp_client (c : WhatsAppWebhookRequest → client_run) (s : server) : server :=
  Server (knowledge_context s) (Some c) (add_task_raises s)
         (client_calls s) (background_tasks s) (hung_up s) (env s).

Definition set_background_tasks (ts : list background_task) (s : server) : server :=
  Server (knowledge_context s) (whatsapp_client s) (add_task_raises s)
         (client_calls s) ts (hung_up s) (env s).

(** Run a computation of the outside world within the server. *)
Definition in_env {A} (m : M world A) : M server A := zoom env set_env m.

(** [background_tasks.add_task(func, ...)] *)
Definition add_task (t : background_task) : M server unit :=
  let! failure := gets (λ s, add_task_raises s t) in
  match failure with
  | Some e => raise e
  | None => modify (λ s, set_background_tasks (background_tasks s ++ [t]) s)
  end.

(** [await connection.disconnect()] *)
Definition disconnect (connection : SmallWebRTCConnection) : M server unit :=
  modify (λ s, Server (knowledge_context s) (whatsapp_client s) (add_task_raises s)
                      (client_calls s) (background_tasks s)
                      (hung_up s ++ [connection]) (env s)) >>
  match disconnect_raises connection with
  | Some e => raise e
  | None => ret tt
  end.

(** The closure of lines 113-122; [current_knowledge] is the variable
    it captures. *)
Definition connection_callback (current_knowledge : str)
    (connection : SmallWebRTCConnection) : M server unit :=
  try_except
    (in_env (log INFO (AutoAccepted (pc_id connection))) >>
     add_task (RunBot connection current_knowledge))
    (λ e, in_env (log ERROR (FailedToStartBot e)) >>
          try_except (disconnect connection) (λ _, ret tt)).

(** The client library running its steps with a callback. *)
Fixpoint client_steps (callback : SmallWebRTCConnection → M server unit)
    (todo : list client_step) : M server unit :=
  match todo with
  | [] => ret tt
  | Accepts connection :: rest => callback connection >> client_steps callback rest
  | DiskChanges n :: rest =>
      modify (λ s, set_env (set_knowledge_dir n (env s)) s) >>
      client_steps callback rest
  end.

(** [await whatsapp_client.handle_webhook_request(body, callback)] *)
Definition handle_webhook_request (body : WhatsAppWebhookRequest)
    (callback : SmallWebRTCConnection → M server unit) : M server unit :=
  let! client := gets whatsapp_client in
  match client with
  | None => raise (OtherException (lit "'NoneType' object has no attribute 'handle_webhook_request'"))
  | Some behaviour =>
      modify (λ s, Server (knowledge_context s) (whatsapp_client s) (add_task_raises s)
                          (client_calls s ++ [body]) (background_tasks s)
                          (hung_up s) (env s)) >>
      client_steps callback (steps (behaviour body)) >>
      match raises (behaviour body) with
      | Some e => raise e
      | None => ret tt
      end
  end.

Definition WHATSAPP_BUSINESS_ACCOUNT : str := lit "whatsapp_business_account".

(** What the web framework sends back for a handler's outcome. *)
Record http_response := {
  status_code : Z;
  content_json : list (str * str);
}.

Section app.
Variable upper : str → str.

(** The start of [lifespan], lines 62-71. *)
Definition lifespan_startup (client : WhatsAppWebhookRequest → client_run) : M server unit :=
  let! k := in_env (load_knowledge upper) in
  modify (set_knowledge_context k) >>
  in_env (log INFO (KnowledgeLoaded (length k))) >>
  modify (set_whatsapp_client client) >>
  in_env (log INFO ClientInitialized).

(** [handle_webhook], lines 100-132. *)
Definition handle_webhook (body : WhatsAppWebhookRequest) : M server (list (str * str)) :=
  if negb (bool_decide (object_ body = WHATSAPP_BUSINESS_ACCOUNT)) then
    raise (HTTPException 400 (lit "Invalid object type"))
  else
    in_env (log INFO (WebhookReceived (object_ body))) >>
    let! current_knowledge := in_env (load_knowledge upper) in
    try_except
      (handle_webhook_request body (connection_callback current_knowledge) >>
       ret [(lit "status", lit "success")])
      (λ e, if is_ValueError e then
              in_env (log WARNING (InvalidWebhook e)) >>
              raise (HTTPException 400 (exn_str e))
            else
              in_env (log ERROR (WebhookProcessingError e)) >>
              raise (HTTPException 500 (lit "Internal error"))).

(** [POST /]: the framework hands the handler a new, empty
    [BackgroundTasks] and turns an [HTTPException] into a response
    with its status. *)
Definition post_root (body : WhatsAppWebhookRequest) : M server http_response :=
  modify (set_background_tasks []) >>
  try_except
    (let! result := handle_webhook body in
     ret {| status_code := 200; content_json := result |})
    (λ e, match e with
          | HTTPException status detail =>
              ret {| status_code := status; content_json := [(lit "detail", detail)] |}
          | _ =>
              ret {| status_code := 500; content_json := [] |}
          end).

End app.

(** The connections for which the client's run leaves a task, given
    which tasks can be scheduled. *)
Fixpoint scheduled (failing : background_task → option exn) (k : str)
    (todo : list client_step) : list background_task :=
  match todo with
  | [] => []
  | Accepts connection :: rest =>
      match failing (RunBot connection k) with
      | None => RunBot connection k :: scheduled failing k rest
      | Some _ => scheduled failing k rest
      end
  | DiskChanges _ :: rest => scheduled failing k rest
  end.

(** The tasks a client leaves behind in a request, for the knowledge [k]. *)
Definition left_by_client (s : server) (body : WhatsAppWebhookRequest) (k : str)
  : list background_task :=
  match whatsapp_client s with
  | Some client => scheduled (add_task_raises s) k (steps (client body))
  | None => []
  end.

(** Running a scheduled task after the response: the function is
    called on the arguments it was scheduled with. *)
Definition run_task (GOOGLE_API_KEY : option str) (N8N_CALL_HOOK_URL : str)
    (t : background_task) : exn + bot :=
  match t with
  | RunBot connection knowledge =>
      run_bot GOOGLE_API_KEY N8N_CALL_HOOK_URL connection (Some knowledge)
  end.

End Server.
Export Server.

(** ** A server used in the examples *)

Definition caller : SmallWebRTCConnection :=
  {| pc_id := lit "pc-1"; disconnect_raises := None |}.

(** A knowledge directory with one document. *)
Definition fees (text : str) : fs_node :=
  Directory {[ lit "fees.md" := Readable text ]}.

(** A client that accepts one call, after the document was edited once
    more. *)
Definition answering (body : WhatsAppWebhookRequest) : client_run :=
  {| steps := [DiskChanges (fees (lit "fees of March")); Accepts caller];
     raises := None |}.

(** The server was started when the document read [fees of January];
    by now it reads [fees of February]. *)
Definition running : server :=
  let started :=
    (lifespan_startup ascii_upper answering
       (Server [] None (λ _, None) [] [] [] (disk (fees (lit "fees of January"))))).2 in
  set_env (set_knowledge_dir (fees (lit "fees of February")) (env started)) started.

Definition call_webhook : WhatsAppWebhookRequest :=
  {| object_ := lit "whatsapp_business_account"; entry := [lit "call"] |}.

Definition page_webhook : WhatsAppWebhookRequest :=
  {| object_ := lit "page"; entry := [lit "call"] |}.

(** A call that was connected at ten and is hung up five minutes
    later, when the automation endpoint cannot be reached. *)
Definition hanging_up : call :=
  {| call_metadata := {[ lit "connected_at" := PyStr (lit "2026-01-01T10:00:00+00:00");
                         lit "disconnected_at" := PyNone ]};
     queued := [LLMRunFrame];
     cancelled := false;
     outside := unreachable |}.

(** ** What the loader is meant to log *)

Module KnowledgeLog.

(** The log line of one listed name: a debug line with the number of
    characters kept, an error line with the exception, or nothing for
    a blank file. *)
Definition file_log (n : fs_node) (name : str) : list (level * log_msg) :=
  match read_text n name with
  | inr text =>
      if truthy (strip text)
      then [(DEBUG, LoadedKnowledge name (length (strip text)))]
      else []
  | inl e => [(ERROR, FailedToRead name e)]
  end.

(** The closing line of a load. *)
Definition closing_log (upper : str → str) (n : fs_node) : level * log_msg :=
  if exists_ n then
    match kept n with
    | [] => (WARNING, NoKnowledgeDocs)
    | docs => (INFO, LoadedDocs (length docs) (length (combined upper n)))
    end
  else (WARNING, KnowledgeDirNotFound).

(** Everything one load writes. *)
Definition load_log (upper : str → str) (n : fs_node) : list (level * log_msg) :=
  concat (file_log n <$> sorted (glob_md n)) ++ [closing_log upper n].

End KnowledgeLog.
Export KnowledgeLog.

(** ** What the server is meant to answer *)

Module ServerSpec.

(** The connections a client accepts in a run, in order. *)
Fixpoint accepted (todo : list client_step) : list SmallWebRTCConnection :=
  match todo with
  | [] => []
  | Accepts connection :: rest => connection :: accepted rest
  | DiskChanges _ :: rest => accepted rest
  end.

(** How [handle_webhook] ends for a request of the right object type,
    given what the client library does with it. *)
Definition webhook_outcome (client : option (WhatsAppWebhookRequest → client_run))
    (body : WhatsAppWebhookRequest) : outcome (list (str * str)) :=
  match client with
  | None => Raise (HTTPException 500 (lit "Internal error"))
  | Some behaviour =>
      match raises (behaviour body) with
      | None => Return [(lit "status", lit "success")]
      | Some e =>
          if is_ValueError e then Raise (HTTPException 400 (exn_str e))
          else Raise (HTTPException 500 (lit "Internal error"))
      end
  end.

End ServerSpec.
Export ServerSpec.

(** ** server.py: configuration, verification, startup and cleanup *)

Module Lifecycle.

(** [not val] for the value of [os.getenv(name)]: a variable that is
    unset or empty is false. *)
Definition env_truthy (val : option str) : bool :=
  match val with
  | Some s => truthy s
  | None => false
  end.

(** The check of lines 39-44, run when the module is loaded. *)
Definition check_required (WHATSAPP_TOKEN WHATSAPP_PHONE_NUMBER_ID : option str)
  : exn + unit :=
  if negb (forallb env_truthy [WHATSAPP_TOKEN; WHATSAPP_PHONE_NUMBER_ID]) then
    let missing :=
      fst <$> filter (λ p, env_truthy p.2 = false)
                [ (lit "WHATSAPP_TOKEN", WHATSAPP_TOKEN);
                  (lit "WHATSAPP_PHONE_NUMBER_ID", WHATSAPP_PHONE_NUMBER_ID) ] in
    inl (ValueError (lit "Missing required env vars: " ++ join (lit ", ") missing))
  else inr tt.

(** [os.getenv("WHATSAPP_WEBHOOK_VERIFICATION_TOKEN", "ifs_verify")] *)
Definition verification_token (val : option str) : str :=
  default (lit "ifs_verify") val.

(** [try: body except ValueError as e: handler(e)]: an exception of
    another class goes through. *)
Definition try_except_only {S A} (caught : exn → bool) (body : M S A)
    (handler : exn → M S A) : M S A :=
  λ s, match body s with
       | (Return a, s') => (Return a, s')
       | (Raise e, s') => if caught e then handler e s' else (Raise e, s')
       end.

(** [try: body finally: final]: the final part runs in both cases; an
    exception it raises takes the place of the body's outcome. *)
Definition try_finally {S A} (body : M S A) (final : M S unit) : M S A :=
  λ s, match body s with
       | (r, s') =>
           match final s' with
           | (Return _, s'') => (r, s'')
           | (Raise e, s'') => (Raise e, s'')
           end
       end.

(** The log lines of the code below.  They go to the same sink as the
    others; here they are kept in a list of their own. *)
Inductive lifecycle_msg :=
| WebhookVerified
| VerificationFailed (e : exn)
| CleanupDone.

(** The server process: the state of the webhook server, what awaiting
    [terminate_all_calls()] does and how often it was awaited. *)
Record process := Process {
  srv : server;
  terminate_raises : option exn;
  terminations : nat;
  lifecycle_logged : list (level * lifecycle_msg);
}.

Definition set_srv (s : server) (p : process) : process :=
  Process s (terminate_raises p) (terminations p) (lifecycle_logged p).

(** Run a computation of the webhook server within the process. *)
Definition in_app {A} (m : M server A) : M process A := zoom srv set_srv m.

Definition lifecycle_log (l : level) (m : lifecycle_msg) : M process unit :=
  modify (λ p, Process (srv p) (terminate_raises p) (terminations p)
                       (lifecycle_logged p ++ [(l, m)])).

(** [await whatsapp_client.terminate_all_calls()] *)
Definition terminate_all_calls : M process unit :=
  λ p, (match terminate_raises p with
        | Some e => Raise e
        | None => Return tt
        end,
        Process (srv p) (terminate_raises p) (S (terminations p)) (lifecycle_logged p)).

Section verify.
Context {verified : Type}.
(** What the client library answers to a verification request, given
    the query parameters and the expected token. *)
Variable handle_verify_webhook_request : gmap str str → str → exn + verified.
Variable WHATSAPP_WEBHOOK_VERIFICATION_TOKEN : str.

(** [await whatsapp_client.handle_verify_webhook_request(params=...,
    expected_verification_token=...)] *)
Definition client_verify (params : gmap str str) : M process verified :=
  let! client := gets (λ p, whatsapp_client (srv p)) in
  match client with
  | None =>
      raise (OtherException
               (lit "'NoneType' object has no attribute 'handle_verify_webhook_request'"))
  | Some _ =>
      match handle_verify_webhook_request params WHATSAPP_WEBHOOK_VERIFICATION_TOKEN with
      | inr result => ret result
      | inl e => raise e
      end
  end.

(** [verify_webhook], lines 84-96; [params] is the dictionary of the
    query parameters. *)
Definition verify_webhook (params : gmap str str) : M process verified :=
  try_except_only is_ValueError
    (let! result := client_verify params in
     lifecycle_log INFO WebhookVerified >>
     ret result)
    (λ e, lifecycle_log WARNING (VerificationFailed e) >>
          raise (HTTPException 403 (lit "Verification failed"))).

End verify.

Section lifespan.
Variable upper : str → str.

(** [lifespan], lines 58-77, around what the application does while
    it serves. *)
Definition lifespan {A} (client : WhatsAppWebhookRequest → client_run)
    (serving : M process A) : M process A :=
  in_app (lifespan_startup upper client) >>
  try_finally serving
    (let! current := gets (λ p, whatsapp_client (srv p)) in
     match current with
     | Some _ => terminate_all_calls
     | None => ret tt
     end >>
     lifecycle_log INFO CleanupDone).

End lifespan.

End Lifecycle.
Export Lifecycle.

(** A verification that accepts the expected token and echoes the
    challenge, used in the examples. *)
Definition echoing (params : gmap str str) (expected : str) : exn + str :=
  match params !! lit "hub.verify_token", params !! lit "hub.challenge" with
  | Some token, Some challenge =>
      if decide (token = expected) then inr challenge
      else inl (ValueError (lit "Webhook verification token mismatch"))
  | _, _ => inl (ValueError (lit "Missing required webhook verification parameters"))
  end.

Definition serving_process : process :=
  Process running None 0 [].

(** ** Examples *)

Example stem_a : stem (lit "a.md") = lit "a".
Proof. reflexivity. Qed.
Example stem_dots : stem (lit "a.b.md") = lit "a.b".
Proof. reflexivity. Qed.
Example stem_hidden : stem (lit ".md") = lit ".md".
Proof. reflexivity. Qed.
Example strip_ex : strip (lit "  hi there " ++ nl) = lit "hi there".
Proof. reflexivity. Qed.
Example glob_ex :
  sorted (glob_md (Directory {[ lit "b.md" := Readable []; lit "a.md" := Readable [];
                                lit "c.txt" := Readable [] ]}))
  = [lit "a.md"; lit "b.md"].
Proof. vm_compute. reflexivity. Qed.

Example load_two :
  loaded ascii_upper
    (disk (Directory {[ lit "b.md" := Readable (lit " world " ++ nl);
                        lit "a.md" := Readable (nl ++ lit "hello");
                        lit "e.md" := Readable (lit "   ");
                        lit "c.md" := Unreadable (OtherException (lit "EACCES"));
                        lit "z.txt" := Readable (lit "no") ]}))
  = Return (lit "--- A ---" ++ nl ++ lit "hello" ++ nl ++ nl ++
            lit "--- B ---" ++ nl ++ lit "world").
Proof. vm_compute. reflexivity. Qed.

Example format_escapes :
  format (lit "{{{who}}} says {what}") [(lit "who", lit "bot"); (lit "what", lit "{hi}")]
  = inr (lit "{bot} says {hi}").
Proof. reflexivity. Qed.

Example format_missing_key :
  format (lit "{who}") [] = inl (OtherException (lit "who")).
Proof. reflexivity. Qed.

Example format_single_brace :
  format (lit "a } b") []
  = inl (ValueError (lit "Single '}' encountered in format string")).
Proof. reflexivity. Qed.

(** One call from the webhook to the call-ended request: the POST is
    handled, the scheduled task builds the bot, the caller connects at
    ten and hangs up five minutes later. *)
Example call_from_webhook_to_summary :
  match background_tasks (handle_webhook ascii_upper call_webhook running).2 with
  | [t] =>
      match run_task None (lit "http://n8n/hook") t with
      | inr b =>
          let c0 := start_call b (set_utcnow (lit "2026-01-01T10:00:00+00:00") unreachable) in
          let c1 := (emit b (lit "on_client_connected") c0).2 in
          let c2 := (emit b (lit "on_client_disconnected")
                       (set_outside (set_utcnow (lit "2026-01-01T10:05:00+00:00") (outside c1)) c1)).2 in
          system_instruction (llm b)
          = RULES_BEFORE ++ lit "--- FEES ---" ++ nl ++ lit "fees of February" ++ nl
          ∧ queued c2 = [LLMRunFrame]
          ∧ cancelled c2 = true
          ∧ posted (outside c2)
            = [ call_ended_request (lit "http://n8n/hook")
                  (PyStr (lit "2026-01-01T10:00:00+00:00"))
                  (PyStr (lit "2026-01-01T10:05:00+00:00")) ]
          ∧ logged (outside c2)
            = [ (INFO, CallConnected); (INFO, CallDisconnected);
                (ERROR, FailedToSendSummary (OtherException (lit "Cannot connect to host"))) ]
      | inl _ => False
      end
  | _ => False
  end.
Proof. vm_compute. repeat split. Qed.

(** ** The order on names *)

Section str_order.

Lemma str_leb_refl a : str_leb a a = true.
Proof.
  induction a as [|x a IH]; simpl; [done|].
  by rewrite (N.ltb_irrefl x).
Qed.

Lemma str_leb_total a b : str_leb a b = true ∨ str_leb b a = true.
Proof.
  revert b; induction a as [|x a IH]; intros [|y b]; simpl; auto.
  destruct (N.ltb_spec x y), (N.ltb_spec y x); auto; lia.
Qed.

Lemma str_leb_trans a b c :
  str_leb a b = true → str_leb b c = true → str_leb a c = true.
Proof.
  revert b c; induction a as [|x a IH]; intros [|y b] [|z c]; simpl; try done.
  destruct (N.ltb_spec x y), (N.ltb_spec y x), (N.ltb_spec y z),
    (N.ltb_spec z y), (N.ltb_spec x z), (N.ltb_spec z x);
    try done; try lia.
  apply IH.
Qed.

Lemma str_leb_antisym a b :
  str_leb a b = true → str_leb b a = true → a = b.
Proof.
  revert b; induction a as [|x a IH]; intros [|y b]; simpl; try done.
  destruct (N.ltb_spec x y), (N.ltb_spec y x); try done; try lia.
  intros; f_equal; [lia | by apply IH].
Qed.

Global Instance str_le_total : Total str_le.
Proof. intros a b. apply str_leb_total. Qed.
Global Instance str_le_trans : Transitive str_le.
Proof. intros a b c. apply str_leb_trans. Qed.
Global Instance str_le_antisym : AntiSymm (=) str_le.
Proof. intros a b. apply str_leb_antisym. Qed.
Global Instance str_le_refl : Reflexive str_le.
Proof. intros a. apply str_leb_refl. Qed.

End str_order.

(** ** Stripping *)

Section strip_facts.

Lemma lstrip_head s c : head (lstrip s) = Some c → isspace c = false.
Proof.
  induction s as [|d s IH]; simpl; [done|].
  destruct (isspace d) eqn:E; [done|]. simpl. by intros [= <-].
Qed.

Lemma lstrip_suffix s : lstrip s `suffix_of` s.
Proof.
  induction s as [|d s IH]; simpl; [done|].
  destruct (isspace d); [by apply suffix_cons_r | done].
Qed.

Lemma rstrip_last s c : last (rstrip s) = Some c → isspace c = false.
Proof. unfold rstrip. rewrite last_reverse. apply lstrip_head. Qed.

Lemma rstrip_prefix s : rstrip s `prefix_of` s.
Proof.
  unfold rstrip. destruct (lstrip_suffix (reverse s)) as [k Hk].
  exists (reverse k).
  by rewrite <-reverse_app, <-Hk, reverse_involutive.
Qed.

(** A stripped string ends in a character that is not white space. *)
Lemma strip_last s c : last (strip s) = Some c → isspace c = false.
Proof. apply rstrip_last. Qed.

(** ... and starts with one. *)
Lemma strip_head s c : head (strip s) = Some c → isspace c = false.
Proof.
  unfold strip. intros Hc.
  destruct (rstrip_prefix (lstrip s)) as [k Hk].
  apply (lstrip_head s). rewrite Hk.
  destruct (rstrip (lstrip s)); [done|]. by simplify_eq/=.
Qed.

End strip_facts.

Section loader_facts.
Variable upper : str → str.

Lemma truthy_nonempty (s : str) : truthy s = true ↔ s ≠ [].
Proof. by destruct s. Qed.

(** The f-string of line 32 is the block of the contract. *)
Lemma document_block name content :
  document upper name content = block upper (name, content).
Proof. unfold document, block, header. simpl. by rewrite <-!(assoc_L (++)). Qed.

Lemma load_file_run name acc w :
  ∃ w', load_file upper name acc w
        = (Return (acc ++ (block upper <$> option_list (contribution (knowledge_dir w) name))), w')
        ∧ knowledge_dir w' = knowledge_dir w.
Proof.
  unfold load_file, try_except, bind, read_text_m, contribution.
  destruct (read_text (knowledge_dir w) name) as [e|text]; simpl.
  - eexists; split; [by rewrite app_nil_r | done].
  - destruct (truthy (strip text)); simpl.
    + eexists; split; [by rewrite document_block | done].
    + eexists; split; [by rewrite app_nil_r | done].
Qed.


Lemma for_each_load_file names acc w :
  ∃ w', for_each names (load_file upper) acc w
        = (Return (acc ++ (block upper <$> omap (contribution (knowledge_dir w)) names)), w')
        ∧ knowledge_dir w' = knowledge_dir w.
Proof.
  revert acc w; induction names as [|name names IH]; intros acc w; simpl.
  - eexists; split; [by rewrite app_nil_r | done].
  - unfold bind at 1.
    destruct (load_file_run name acc w) as (w1 & -> & Hd).
    destruct (IH (acc ++ (block upper <$> option_list (contribution (knowledge_dir w) name))) w1)
      as (w2 & -> & Hd2).
    exists w2; split; [|congruence].
    rewrite Hd, <-(assoc_L (++)). do 2 f_equal.
    by destruct (contribution (knowledge_dir w) name).
Qed.

(** The value [load_knowledge()] returns, in every world. *)
Lemma loaded_combined w :
  loaded upper w = Return (combined upper (knowledge_dir w)).
Proof.
  unfold loaded, load_knowledge, combined, kept.
  unfold bind at 1, gets.
  destruct (for_each_load_file (sorted (glob_md (knowledge_dir w))) [] w)
    as (w1 & E & _).
  destruct (knowledge_dir w) eqn:Hdir; cbn [exists_ negb]; [done|..];
    unfold bind at 1; rewrite E; cbn [app];
    by destruct (block upper <$> _).
Qed.

End loader_facts.

(** ** Which files are kept, and in which order *)

Section kept_facts.

Lemma StronglySorted_sublist {A} (R : relation A) (l1 l2 : list A) :
  l1 `sublist_of` l2 → StronglySorted R l2 → StronglySorted R l1.
Proof.
  induction 1 as [|x l1 l2 Hsub IH|x l1 l2 Hsub IH]; intros Hs; [done|..].
  - apply StronglySorted_inv in Hs as [Hs Hx].
    constructor; [by apply IH|].
    rewrite Forall_forall in Hx |- *.
    intros y Hy. apply Hx. by eapply elem_of_sublist.
  - apply StronglySorted_inv in Hs as [Hs _]. by apply IH.
Qed.

Lemma glob_md_elem files name :
  name ∈ glob_md (Directory files)
  ↔ matches_md name = true ∧ is_Some (files !! name).
Proof.
  unfold glob_md. rewrite list_elem_of_filter, list_elem_of_fmap.
  split.
  - intros [Hm ([n e] & -> & He)]. split; [done|].
    apply elem_of_map_to_list in He. by exists e.
  - intros [Hm [e He]]. split; [done|].
    exists (name, e). split; [done|]. by apply elem_of_map_to_list.
Qed.

Lemma glob_md_NoDup n : NoDup (glob_md n).
Proof.
  destruct n; simpl; try apply NoDup_nil_2.
  apply NoDup_filter, NoDup_fst_map_to_list.
Qed.

Lemma sorted_elem names name : name ∈ sorted names ↔ name ∈ names.
Proof. unfold sorted. by rewrite merge_sort_Permutation. Qed.

Lemma sorted_NoDup names : NoDup names → NoDup (sorted names).
Proof. unfold sorted. by rewrite merge_sort_Permutation. Qed.

Lemma sorted_StronglySorted names : StronglySorted str_le (sorted names).
Proof. apply StronglySorted_merge_sort; apply _. Qed.

Lemma contribution_name n name p : contribution n name = Some p → p.1 = name.
Proof.
  unfold contribution. destruct (read_text n name); [done|].
  destruct (truthy _); [|done]. by intros [= <-].
Qed.

Lemma omap_contribution_sublist n names :
  (omap (contribution n) names).*1 `sublist_of` names.
Proof.
  induction names as [|name names IH]; simpl; [done|].
  destruct (contribution n name) as [p|] eqn:E; simpl.
  - rewrite (contribution_name _ _ _ E). by constructor.
  - by constructor.
Qed.

(** The kept files come in the order of their names ... *)
Lemma kept_sorted n : StronglySorted str_le (kept n).*1.
Proof.
  eapply StronglySorted_sublist; [apply omap_contribution_sublist|].
  apply sorted_StronglySorted.
Qed.

(** ... each name once ... *)
Lemma kept_NoDup n : NoDup (kept n).*1.
Proof.
  eapply sublist_NoDup; [|apply omap_contribution_sublist].
  apply sorted_NoDup, glob_md_NoDup.
Qed.

(** ... and they are the [*.md] names that can be read and whose
    trimmed text is not empty, each with that trimmed text. *)
Lemma kept_elem files name content :
  (name, content) ∈ kept (Directory files)
  ↔ matches_md name = true
    ∧ ∃ text, files !! name = Some (Readable text)
              ∧ content = strip text ∧ content ≠ [].
Proof.
  unfold kept. rewrite list_elem_of_omap. split.
  - intros (x & Hx & Hc). apply sorted_elem, glob_md_elem in Hx as [Hm _].
    pose proof (contribution_name _ _ _ Hc) as Hn; simpl in Hn; subst x.
    split; [done|]. revert Hc. unfold contribution, read_text.
    destruct (files !! name) as [[text|e]|]; try done.
    destruct (truthy (strip text)) eqn:Ht; [|done].
    intros [= <-]. exists text. by rewrite <-truthy_nonempty.
  - intros (Hm & text & Hf & -> & Hne). exists name. split.
    + apply sorted_elem, glob_md_elem. by rewrite Hf.
    + unfold contribution, read_text. rewrite Hf.
      apply truthy_nonempty in Hne. by rewrite Hne.
Qed.

(** A block starts with a dash and ends with a character that is not
    white space, so the two line feeds between blocks make exactly
    one empty line. *)
Lemma block_shape upper n p :
  p ∈ kept n →
  head (block upper p) = Some 45%N
  ∧ ∃ c, last (block upper p) = Some c ∧ isspace c = false.
Proof.
  unfold kept. rewrite list_elem_of_omap. intros (x & _ & Hc).
  split; [done|].
  revert Hc. unfold contribution. destruct (read_text n x) as [|text]; [done|].
  destruct (truthy (strip text)) eqn:Ht; [|done]. intros [= <-].
  unfold block; cbn [fst snd].
  destruct (last (strip text)) as [c|] eqn:Hl.
  - exists c. split; [|by apply (strip_last text)].
    by rewrite !last_app, Hl.
  - apply last_None in Hl. by rewrite Hl in Ht.
Qed.

Lemma omap_cons_eq {A B} (f : A → option B) x (l : list A) :
  omap f (x :: l) = match f x with Some y => y :: omap f l | None => omap f l end.
Proof. done. Qed.

Lemma omap_filter_ne {A B} `{EqDecision A} (f g : A → option B) (a : A) (l : list A) :
  (∀ x, x ≠ a → f x = g x) → g a = None →
  omap f (filter (λ x, x ≠ a) l) = omap g l.
Proof.
  intros Hfg Hg. induction l as [|x l IH]; [done|].
  rewrite filter_cons, (omap_cons_eq g).
  destruct (decide (x ≠ a)) as [Hne|Heq].
  - by rewrite omap_cons_eq, IH, Hfg.
  - apply dec_stable in Heq as ->. by rewrite Hg.
Qed.

(** Removing a skipped name changes nothing for the others. *)
Lemma kept_delete_skipped files name e :
  files !! name = Some e → skipped e →
  kept (Directory (delete name files)) = kept (Directory files).
Proof.
  intros Hf Hs. unfold kept.
  assert (sorted (glob_md (Directory (delete name files)))
          = filter (λ x, x ≠ name) (sorted (glob_md (Directory files)))) as ->.
  { apply (Sorted_unique str_le).
    - apply Sorted_merge_sort; apply _.
    - apply StronglySorted_Sorted.
      eapply StronglySorted_sublist; [apply sublist_filter; apply _|].
      apply sorted_StronglySorted.
    - apply NoDup_Permutation.
      + apply sorted_NoDup, glob_md_NoDup.
      + apply NoDup_filter, sorted_NoDup, glob_md_NoDup.
      + intros x. rewrite list_elem_of_filter, !sorted_elem, !glob_md_elem.
        destruct (decide (x = name)) as [->|Hne].
        * rewrite lookup_delete_eq. split; [by intros [_ [? ?]] | by intros [? _]].
        * rewrite lookup_delete_ne by done. tauto. }
  apply omap_filter_ne.
  - intros x Hne. unfold contribution, read_text. by rewrite lookup_delete_ne.
  - unfold contribution, read_text. rewrite Hf.
    destruct e as [text|]; [|done]. simpl in Hs. by rewrite Hs.
Qed.

End kept_facts.

(** ** The knowledge loader: what it returns *)

(** C2.  For a directory of markdown files, [load_knowledge()] returns
    the blocks of the kept files joined by one blank line.  A block is
    the header [--- NAME ---] (the file name without [.md], in upper
    case), a line feed and the trimmed content.  The kept files are the
    [*.md] names that can be read and whose trimmed content is not
    empty; they come in the order of their names, each once.  Every
    block starts with a dash and ends with a character that is not
    white space, so the two line feeds between two blocks make exactly
    one empty line. *)
Theorem load_knowledge_contract (upper : str → str) (w : world)
    (files : gmap str dir_entry) :
  let docs := kept (Directory files) in
  loaded upper (set_knowledge_dir (Directory files) w)
  = Return (join (nl ++ nl)
              ((λ p, (lit "--- " ++ upper (stem p.1) ++ lit " ---") ++ nl ++ p.2) <$> docs))
  ∧ StronglySorted str_le docs.*1
  ∧ NoDup docs.*1
  ∧ (∀ name content,
       (name, content) ∈ docs
       ↔ matches_md name = true
         ∧ ∃ text, files !! name = Some (Readable text)
                   ∧ content = strip text ∧ content ≠ [])
  ∧ (∀ p, p ∈ docs →
       head (block upper p) = Some 45%N
       ∧ ∃ c, last (block upper p) = Some c ∧ isspace c = false).
Proof.
  intros docs. split; [|split; [|split; [|split]]].
  - by rewrite loaded_combined.
  - apply kept_sorted.
  - apply kept_NoDup.
  - apply kept_elem.
  - intros p Hp. by apply (block_shape upper (Directory files)).
Qed.

(** C7.  When the knowledge directory is missing, and when no document
    comes out of it (it is not a directory, it has no [*.md] file, or
    every [*.md] file is unreadable or blank), [load_knowledge()]
    returns the empty string; it does not raise. *)
Theorem load_knowledge_nothing (upper : str → str) (w : world) (n : fs_node) :
  yields_nothing n →
  loaded upper (set_knowledge_dir n w) = Return [].
Proof.
  intros Hn. rewrite loaded_combined. unfold combined. simpl.
  assert (kept n = []) as ->; [|done].
  destruct n as [| |files]; [done|done|].
  apply elem_of_nil_inv. intros [name content] Hin.
  apply kept_elem in Hin as (Hm & text & Hf & -> & Hne).
  apply Hne. apply (Hn _ _ Hm Hf).
Qed.

Lemma load_knowledge_nothing_witness :
  loaded ascii_upper (disk Missing) = Return []
  ∧ loaded ascii_upper
      (disk (Directory {[ lit "a.md" := Readable (lit "  " ++ nl);
                          lit "b.md" := Unreadable (OtherException (lit "EACCES"));
                          lit "notes.txt" := Readable (lit "text") ]}))
    = Return [].
Proof.
  split.
  - apply (load_knowledge_nothing ascii_upper (disk Missing) Missing). exact I.
  - apply (load_knowledge_nothing ascii_upper (disk Missing)).
    intros name e Hm Hf.
    apply lookup_insert_Some in Hf as [[<- <-]|[_ Hf]]; [reflexivity|].
    apply lookup_insert_Some in Hf as [[<- <-]|[_ Hf]]; [exact I|].
    apply lookup_singleton_Some in Hf as [<- <-].
    vm_compute in Hm. discriminate.
Defined.

(** C8.  A file that cannot be read, or whose trimmed content is empty,
    is skipped: the loader returns what it returns for the directory
    without that file, the kept files and their contents are the same,
    and the call returns a string whatever the files are. *)
Theorem skipped_file_changes_nothing (upper : str → str) (w : world)
    (files : gmap str dir_entry) (name : str) (e : dir_entry) :
  files !! name = Some e →
  skipped e →
  loaded upper (set_knowledge_dir (Directory files) w)
  = loaded upper (set_knowledge_dir (Directory (delete name files)) w)
  ∧ kept (Directory files) = kept (Directory (delete name files))
  ∧ ∃ out, loaded upper (set_knowledge_dir (Directory files) w) = Return out.
Proof.
  intros Hf Hs. rewrite !loaded_combined. unfold combined. simpl.
  rewrite (kept_delete_skipped files name e Hf Hs). eauto.
Qed.

Lemma skipped_file_changes_nothing_witness :
  let files : gmap str dir_entry :=
    {[ lit "a.md" := Readable (lit "hello");
       lit "b.md" := Unreadable (OtherException (lit "EACCES")) ]} in
  loaded ascii_upper (disk (Directory files))
  = loaded ascii_upper (disk (Directory (delete (lit "b.md") files)))
  ∧ kept (Directory files) = kept (Directory (delete (lit "b.md") files))
  ∧ ∃ out, loaded ascii_upper (disk (Directory files)) = Return out.
Proof.
  intros files.
  apply (skipped_file_changes_nothing ascii_upper (disk Missing) files (lit "b.md")
           (Unreadable (OtherException (lit "EACCES")))).
  - reflexivity.
  - exact I.
Defined.

(** ** The call-summary notifier *)

Section hooks_facts.
Variable destination : str.
Variable md : gmap str pyval.

Lemma send_call_summary_unset w :
  send_call_summary [] md w
  = (Return tt, World (knowledge_dir w) (utcnow w) (network w) (posted w)
                      (logged w ++ [(DEBUG, HookUrlNotSet)])).
Proof. done. Qed.

(** With a destination, the request goes out first, whatever follows. *)
Lemma send_call_summary_posts w :
  destination ≠ [] →
  let request := call_ended_request destination
                   (dict_get md (lit "connected_at"))
                   (dict_get md (lit "disconnected_at")) in
  ∃ entry,
    send_call_summary destination md w
    = (Return tt, World (knowledge_dir w) (utcnow w) (network w)
                        (posted w ++ [request]) (logged w ++ [entry]))
    ∧ entry =
        match network w request with
        | Failure e => (ERROR, FailedToSendSummary e)
        | Response status text =>
            if (status =? 200)%Z then (INFO, SummarySent status)
            else match text with
                 | inr body => (WARNING, HookReturned status body)
                 | inl e => (ERROR, FailedToSendSummary e)
                 end
        end.
Proof.
  intros Hne request. unfold send_call_summary.
  destruct destination as [|c rest]; [done|]. cbn [truthy negb].
  unfold session_post, resp_text, post, log.
  unfold try_except, bind, modify, ret, raise.
  subst request. unfold call_ended_request.
  destruct (network w _) as [status [e|body]|e]; cbn [fst snd];
    try destruct (status =? 200)%Z; eauto.
Qed.

Lemma send_call_summary_returns w :
  (send_call_summary destination md w).1 = Return tt.
Proof.
  destruct (decide (destination = [])) as [E|Hne].
  - by rewrite E.
  - by destruct (send_call_summary_posts w Hne) as (entry & -> & _).
Qed.

End hooks_facts.

(** C4.  [send_call_summary] returns to its caller for every call
    metadata.  Without a destination it makes no POST.  With a
    destination, when the POST fails (the client library raises, or
    the body of a response other than 200 cannot be read) the error is
    logged and the call still returns. *)
Theorem send_call_summary_never_raises (destination : str)
    (md : gmap str pyval) (w : world) :
  let after := send_call_summary destination md w in
  after.1 = Return tt
  ∧ (destination = [] → posted after.2 = posted w)
  ∧ (∀ e, destination ≠ [] →
          post_fails (network w (call_ended_request destination
                                   (dict_get md (lit "connected_at"))
                                   (dict_get md (lit "disconnected_at")))) e →
          after.1 = Return tt
          ∧ logged after.2 = logged w ++ [(ERROR, FailedToSendSummary e)]).
Proof.
  intros after. unfold after. split; [|split].
  - apply send_call_summary_returns.
  - by intros ->.
  - intros e Hne Hfail.
    destruct (send_call_summary_posts destination md w Hne) as (entry & -> & ->).
    split; [done|]. cbn [snd logged].
    destruct (network w _) as [status [e'|body]|e']; simpl in Hfail.
    + destruct Hfail as [Hst <-].
      destruct (Z.eqb_spec status 200); [done|done].
    + done.
    + by subst.
Qed.

Lemma send_call_summary_never_raises_witness :
  (send_call_summary [] ∅ unreachable).1 = Return tt
  ∧ posted (send_call_summary [] ∅ unreachable).2 = []
  ∧ (send_call_summary (lit "http://n8n/hook") ∅ unreachable).1 = Return tt
  ∧ logged (send_call_summary (lit "http://n8n/hook") ∅ unreachable).2
    = [(ERROR, FailedToSendSummary (OtherException (lit "Cannot connect to host")))].
Proof.
  pose proof (send_call_summary_never_raises [] ∅ unreachable) as (H1 & H2 & _).
  pose proof (send_call_summary_never_raises (lit "http://n8n/hook") ∅ unreachable)
    as (_ & _ & H3).
  split; [exact H1|]. split; [exact (H2 eq_refl)|].
  apply (H3 (OtherException (lit "Cannot connect to host"))).
  - discriminate.
  - reflexivity.
Defined.

(** C6.  With a destination configured, [send_call_summary] makes
    exactly one POST, to that destination, with the JSON object of the
    three fields [event] (always [call_ended]), [connected_at] and
    [disconnected_at] (read from the call metadata, [None] when
    absent) and a total timeout of ten seconds. *)
Theorem send_call_summary_one_post (destination : str)
    (md : gmap str pyval) (w : world) :
  destination ≠ [] →
  posted (send_call_summary destination md w).2
  = posted w ++
    [ {| url := destination;
         json := [ (lit "event", PyStr (lit "call_ended"));
                   (lit "connected_at", default PyNone (md !! lit "connected_at"));
                   (lit "disconnected_at", default PyNone (md !! lit "disconnected_at")) ];
         timeout_total := 10 |} ].
Proof.
  intros Hne.
  by destruct (send_call_summary_posts destination md w Hne) as (entry & -> & _).
Qed.

Lemma send_call_summary_one_post_witness :
  posted (send_call_summary (lit "http://n8n/hook")
            {[ lit "connected_at" := PyStr (lit "2026-01-01T10:00:00+00:00");
               lit "disconnected_at" := PyStr (lit "2026-01-01T10:05:00+00:00") ]}
            unreachable).2
  = [ {| url := lit "http://n8n/hook";
         json := [ (lit "event", PyStr (lit "call_ended"));
                   (lit "connected_at", PyStr (lit "2026-01-01T10:00:00+00:00"));
                   (lit "disconnected_at", PyStr (lit "2026-01-01T10:05:00+00:00")) ];
         timeout_total := 10 |} ].
Proof.
  etrans.
  - apply (send_call_summary_one_post (lit "http://n8n/hook")
             {[ lit "connected_at" := PyStr (lit "2026-01-01T10:00:00+00:00");
                lit "disconnected_at" := PyStr (lit "2026-01-01T10:05:00+00:00") ]}
             unreachable).
    discriminate.
  - vm_compute. reflexivity.
Defined.

(** ** The bot *)

Section format_facts.
Variable kwargs : list (str * str).

Lemma format_from_plain text rest :
  Forall plain text →
  format_from None kwargs (text ++ rest)
  = map_inr (app text) (format_from None kwargs rest).
Proof.
  induction 1 as [|c text [Hopen Hclose] _ IH]; simpl.
  - by destruct (format_from None kwargs rest).
  - apply N.eqb_neq in Hopen, Hclose. rewrite Hopen, Hclose, IH.
    by destruct (format_from None kwargs rest).
Qed.

Lemma format_from_field seen name rest :
  Forall (λ c, c ≠ 125%N) name →
  format_from (Some seen) kwargs (name ++ 125%N :: rest)
  = match kwarg kwargs (seen ++ name) with
    | Some v => map_inr (app v) (format_from None kwargs rest)
    | None => inl (OtherException (seen ++ name))
    end.
Proof.
  intros Hname. revert seen.
  induction Hname as [|c name Hc _ IH]; intros seen; simpl.
  - by rewrite app_nil_r.
  - apply N.eqb_neq in Hc. rewrite Hc, IH. by rewrite <-(assoc_L (++)).
Qed.

End format_facts.

Lemma AGENT_RULES_split :
  AGENT_RULES = RULES_BEFORE ++ lit "{knowledge}" ++ nl.
Proof. vm_compute. reflexivity. Qed.

Lemma RULES_BEFORE_plain : Forall plain RULES_BEFORE.
Proof.
  apply Forall_forall. intros c Hc.
  assert (bool_decide (c ∈ RULES_BEFORE) = true) as Hb by by apply bool_decide_eq_true.
  split; intros ->; vm_compute in Hb; discriminate.
Qed.

(** The prompt is the template with its slot filled. *)
Lemma format_AGENT_RULES (slot : str) :
  format AGENT_RULES [(lit "knowledge", slot)] = inr (RULES_BEFORE ++ slot ++ nl).
Proof.
  unfold format. rewrite AGENT_RULES_split.
  rewrite format_from_plain by apply RULES_BEFORE_plain.
  change (lit "{knowledge}" ++ nl)
    with (123%N :: lit "knowledge" ++ 125%N :: nl).
  change (format_from None [(lit "knowledge", slot)]
            (123%N :: lit "knowledge" ++ 125%N :: nl))
    with (format_from (Some []) [(lit "knowledge", slot)]
            (lit "knowledge" ++ 125%N :: nl)).
  rewrite format_from_field.
  - reflexivity.
  - apply Forall_forall. intros c Hc ->. vm_compute in Hc.
    by repeat (apply elem_of_cons in Hc as [Hc|Hc]; [done|]); apply elem_of_nil in Hc.
Qed.

Section run_bot_facts.
Variable GOOGLE_API_KEY : option str.
Variable N8N_CALL_HOOK_URL : str.
Variable connection : SmallWebRTCConnection.

(** [run_bot] always gets as far as the runner, and this is what it
    has built by then. *)
Lemma run_bot_built (knowledge : option str) :
  ∃ b, run_bot GOOGLE_API_KEY N8N_CALL_HOOK_URL connection knowledge = inr b
       ∧ system_instruction (llm b)
         = RULES_BEFORE ++ or_else (default [] knowledge) NO_KNOWLEDGE ++ nl
       ∧ webrtc_connection (transport b) = connection
       ∧ pipeline (task b)
         = [ TransportInput (transport b);
             UserAggregator (context b) SileroVADAnalyzer;
             LLMService (llm b);
             TransportOutput (transport b);
             AssistantAggregator (context b) ]
       ∧ handlers b
         = [ (lit "on_client_connected", on_connected);
             (lit "on_client_disconnected", on_disconnected N8N_CALL_HOOK_URL) ].
Proof.
  unfold run_bot. rewrite format_AGENT_RULES. eexists. split; [reflexivity|].
  by cbn.
Qed.

End run_bot_facts.

(** C9.  With [GOOGLE_API_KEY] set to a key, so that the constructor
    of the LLM service accepts it, [run_bot] builds its pipeline
    whatever the connection and the knowledge, and the pipeline has
    exactly five stages, in this order: the input of the transport,
    the user aggregator, the LLM service (the one made with that key),
    the output of the same transport, the assistant aggregator.
    Without a key the constructor of line 60 raises before line 83 is
    reached and no pipeline is built; that run is not covered here. *)
Theorem run_bot_pipeline (key : str) (N8N_CALL_HOOK_URL : str)
    (connection : SmallWebRTCConnection) (knowledge : option str) :
  key ≠ [] →
  ∃ b, run_bot (Some key) N8N_CALL_HOOK_URL connection knowledge = inr b
       ∧ length (pipeline (task b)) = 5
       ∧ stage_of <$> pipeline (task b)
         = [InputTransport; UserTurnAggregator; HostedLLM; OutputTransport;
            AssistantTurnAggregator]
       ∧ pipeline (task b)
         = [ TransportInput (transport b);
             UserAggregator (context b) SileroVADAnalyzer;
             LLMService (llm b);
             TransportOutput (transport b);
             AssistantAggregator (context b) ]
       ∧ webrtc_connection (transport b) = connection
       ∧ api_key (llm b) = Some key.
Proof.
  intros _. unfold run_bot. rewrite format_AGENT_RULES.
  eexists. split; [reflexivity|]. cbn. done.
Qed.

Lemma run_bot_pipeline_witness :
  ∃ b, run_bot (Some (lit "key-of-the-agent")) (lit "http://n8n/hook") caller None = inr b
       ∧ stage_of <$> pipeline (task b)
         = [InputTransport; UserTurnAggregator; HostedLLM; OutputTransport;
            AssistantTurnAggregator]
       ∧ api_key (llm b) = Some (lit "key-of-the-agent").
Proof.
  destruct (run_bot_pipeline (lit "key-of-the-agent") (lit "http://n8n/hook") caller None)
    as (b & Hb & _ & Hstages & _ & _ & Hkey).
  - discriminate.
  - exists b. split; [exact Hb|]. split; [exact Hstages|exact Hkey].
Defined.

(** C10.  When the knowledge string is left out or empty, the prompt
    given to the LLM service is the template with [No knowledge
    documents loaded yet.] in its knowledge slot.  For every knowledge
    string the slot is filled with a string that is not empty: the
    knowledge itself when there is some, the fallback otherwise. *)
Theorem run_bot_prompt_fallback (GOOGLE_API_KEY : option str) (N8N_CALL_HOOK_URL : str)
    (connection : SmallWebRTCConnection) :
  prompt_of (run_bot GOOGLE_API_KEY N8N_CALL_HOOK_URL connection None)
  = Some (RULES_BEFORE ++ lit "No knowledge documents loaded yet." ++ nl)
  ∧ prompt_of (run_bot GOOGLE_API_KEY N8N_CALL_HOOK_URL connection (Some []))
    = Some (RULES_BEFORE ++ lit "No knowledge documents loaded yet." ++ nl)
  ∧ AGENT_RULES = RULES_BEFORE ++ lit "{knowledge}" ++ nl
  ∧ ∀ knowledge,
      ∃ slot, prompt_of (run_bot GOOGLE_API_KEY N8N_CALL_HOOK_URL connection knowledge)
              = Some (RULES_BEFORE ++ slot ++ nl)
              ∧ slot ≠ []
              ∧ slot = match knowledge with
                       | Some (c :: k) => c :: k
                       | _ => lit "No knowledge documents loaded yet."
                       end.
Proof.
  split; [|split; [|split]].
  - destruct (run_bot_built GOOGLE_API_KEY N8N_CALL_HOOK_URL connection None)
      as (b & -> & Hp & _). simpl. by rewrite Hp.
  - destruct (run_bot_built GOOGLE_API_KEY N8N_CALL_HOOK_URL connection (Some []))
      as (b & -> & Hp & _). simpl. by rewrite Hp.
  - apply AGENT_RULES_split.
  - intros knowledge.
    destruct (run_bot_built GOOGLE_API_KEY N8N_CALL_HOOK_URL connection knowledge)
      as (b & -> & Hp & _).
    exists (or_else (default [] knowledge) NO_KNOWLEDGE).
    split; [simpl; by rewrite Hp|].
    by destruct knowledge as [[|c k]|].
Qed.

(** ** The disconnect handler *)

Section disconnect_facts.
Variable notifier : gmap str pyval → M call unit.

(** The handler runs the notifier once, on the metadata of the call
    that is ready, and turns a raise into a log entry. *)
Lemma on_disconnected_with_run (c : call) :
  on_disconnected_with notifier c
  = match notifier (call_metadata (ready_to_notify c)) (ready_to_notify c) with
    | (Return u, c') => (Return u, c')
    | (Raise e, c') =>
        (Return tt, set_outside (log ERROR (SummaryHookRaised e) (outside c')).2 c')
    end.
Proof.
  unfold on_disconnected_with, now_isoformat, metadata_set, task_cancel, outward.
  unfold try_except, bind, gets, modify, zoom, ret. cbn.
  unfold ready_to_notify. cbn.
  by destruct (notifier _ _) as [[u|e] c'].
Qed.

Lemma on_disconnected_with_returns (c : call) :
  (on_disconnected_with notifier c).1 = Return tt.
Proof.
  rewrite on_disconnected_with_run.
  by destruct (notifier _ _) as [[[]|e] c'].
Qed.

End disconnect_facts.

Lemma emit_disconnected (b : bot) (hook : str) (c : call) :
  handlers b = [ (lit "on_client_connected", on_connected);
                 (lit "on_client_disconnected", on_disconnected hook) ] →
  emit b (lit "on_client_disconnected") c
  = (on_disconnected hook >> ret tt) c.
Proof. unfold emit. by intros ->. Qed.

(** The real notifier, run inside a call. *)
Lemma outward_send_call_summary (hook : str) (c : call) :
  ∃ w, outward (send_call_summary hook (call_metadata c)) c = (Return tt, set_outside w c)
       ∧ (hook ≠ [] →
          posted w = posted (outside c) ++
                     [call_ended_request hook
                        (dict_get (call_metadata c) (lit "connected_at"))
                        (dict_get (call_metadata c) (lit "disconnected_at"))]).
Proof.
  unfold outward, zoom.
  destruct (send_call_summary hook (call_metadata c) (outside c)) as [r w] eqn:E.
  exists w. split.
  - f_equal. change r with (r, w).1. rewrite <-E.
    apply (send_call_summary_returns hook).
  - intros Hne. change w with (r, w).2. rewrite <-E.
    by destruct (send_call_summary_posts hook (call_metadata c) (outside c) Hne)
      as (entry & -> & _).
Qed.

(** C5.  On a disconnect event the handler that [run_bot] registered
    returns without raising; after it the task is cancelled and the
    metadata holds the time of the disconnect.  The notifier runs once,
    after both, on the metadata accumulated so far: with a destination
    configured, the one request sent carries the connection time
    recorded earlier and this disconnect time.  Whatever notifier
    stands in the place of [send_call_summary], an exception it raises
    is logged by the handler and goes no further. *)
Theorem on_disconnected_contract (GOOGLE_API_KEY : option str)
    (N8N_CALL_HOOK_URL : str) (connection : SmallWebRTCConnection)
    (knowledge : option str) (c : call) :
  ∃ b, run_bot GOOGLE_API_KEY N8N_CALL_HOOK_URL connection knowledge = inr b
  ∧ let after := emit b (lit "on_client_disconnected") c in
    let t := PyStr (utcnow (outside c)) in
    after.1 = Return tt
    ∧ cancelled after.2 = true
    ∧ call_metadata after.2 = <[lit "disconnected_at" := t]> (call_metadata c)
    ∧ (N8N_CALL_HOOK_URL ≠ [] →
       posted (outside after.2)
       = posted (outside c) ++
         [call_ended_request N8N_CALL_HOOK_URL
            (dict_get (call_metadata c) (lit "connected_at")) t])
    ∧ ∀ notifier : gmap str pyval → M call unit,
        (on_disconnected_with notifier c).1 = Return tt
        ∧ (on_disconnected_with notifier c).2
          = match notifier (call_metadata (ready_to_notify c)) (ready_to_notify c) with
            | (Return _, c') => c'
            | (Raise e, c') =>
                set_outside (log ERROR (SummaryHookRaised e) (outside c')).2 c'
            end.
Proof.
  destruct (run_bot_built GOOGLE_API_KEY N8N_CALL_HOOK_URL connection knowledge)
    as (b & Hb & _ & _ & _ & Hh).
  exists b. split; [done|]. intros after t. subst after.
  rewrite (emit_disconnected b N8N_CALL_HOOK_URL c Hh).
  unfold bind, on_disconnected. rewrite on_disconnected_with_run.
  destruct (outward_send_call_summary N8N_CALL_HOOK_URL (ready_to_notify c))
    as (w & -> & Hposted).
  cbn [fst snd ret]. repeat split.
  - intros Hne. cbn [outside set_outside]. rewrite (Hposted Hne). cbn.
    unfold dict_get. rewrite lookup_insert_eq, lookup_insert_ne; done.
  - apply on_disconnected_with_returns.
  - rewrite on_disconnected_with_run.
    by destruct (notifier _ _) as [[u|e] c'].
Qed.

Lemma on_disconnected_contract_witness :
  ∃ b, run_bot None (lit "http://n8n/hook") caller None = inr b
  ∧ (emit b (lit "on_client_disconnected") hanging_up).1 = Return tt
  ∧ posted (outside (emit b (lit "on_client_disconnected") hanging_up).2)
    = [ call_ended_request (lit "http://n8n/hook")
          (PyStr (lit "2026-01-01T10:00:00+00:00"))
          (PyStr (lit "2026-01-01T10:05:00+00:00")) ].
Proof.
  destruct (on_disconnected_contract None (lit "http://n8n/hook") caller None hanging_up)
    as (b & Hb & Hret & _ & _ & Hpost & _).
  exists b. split; [exact Hb|]. split; [exact Hret|].
  etrans.
  - apply Hpost. discriminate.
  - vm_compute. reflexivity.
Defined.

(** ** The webhook server *)

Section server_facts.
Variable upper : str → str.

Lemma in_env_run {A} (m : M world A) (s : server) :
  in_env m s = ((m (env s)).1, set_env (m (env s)).2 s).
Proof. unfold in_env, zoom. by destruct (m (env s)). Qed.

(** The callback never raises; it leaves one task, for the knowledge
    it captured, unless scheduling fails. *)
Lemma connection_callback_run (k : str) (connection : SmallWebRTCConnection) (s : server) :
  ∃ s', connection_callback k connection s = (Return tt, s')
        ∧ background_tasks s'
          = background_tasks s ++
            match add_task_raises s (RunBot connection k) with
            | None => [RunBot connection k]
            | Some _ => []
            end
        ∧ add_task_raises s' = add_task_raises s
        ∧ whatsapp_client s' = whatsapp_client s
        ∧ client_calls s' = client_calls s.
Proof.
  unfold connection_callback, add_task, disconnect.
  unfold try_except, bind. rewrite !in_env_run.
  unfold gets, modify, ret, raise, log. cbn.
  destruct (add_task_raises s (RunBot connection k)) as [e|]; cbn.
  - destruct (disconnect_raises connection); cbn;
      eexists; (split; [reflexivity|]); cbn; by rewrite app_nil_r.
  - eexists; split; [reflexivity|]; done.
Qed.

Lemma client_steps_run (k : str) (todo : list client_step) (s : server) :
  ∃ s', client_steps (connection_callback k) todo s = (Return tt, s')
        ∧ background_tasks s'
          = background_tasks s ++ scheduled (add_task_raises s) k todo
        ∧ add_task_raises s' = add_task_raises s
        ∧ whatsapp_client s' = whatsapp_client s
        ∧ client_calls s' = client_calls s.
Proof.
  revert s. induction todo as [|[connection|n] todo IH]; intros s.
  - exists s. by rewrite app_nil_r.
  - cbn [client_steps]. unfold bind at 1.
    destruct (connection_callback_run k connection s) as (s1 & -> & Ht & Ha & Hc & Hl).
    destruct (IH s1) as (s2 & -> & Ht2 & Ha2 & Hc2 & Hl2).
    exists s2. split; [done|]. rewrite Ht2, Ht, Ha, Ha2, Hc2, Hl2.
    repeat split; try done.
    cbn [scheduled]. rewrite <-(assoc_L (++)).
    by destruct (add_task_raises s (RunBot connection k)).
  - cbn [client_steps]. unfold bind at 1, modify.
    destruct (IH (set_env (set_knowledge_dir n (env s)) s)) as (s2 & -> & Ht2 & Ha2 & Hc2 & Hl2).
    exists s2. by rewrite Ht2, Ha2, Hc2, Hl2.
Qed.

Lemma handle_webhook_request_run (k : str) (body : WhatsAppWebhookRequest) (s : server) :
  background_tasks (handle_webhook_request body (connection_callback k) s).2
  = background_tasks s ++ left_by_client s body k.
Proof.
  unfold handle_webhook_request, left_by_client, bind at 1, gets.
  destruct (whatsapp_client s) as [client|]; [|by rewrite app_nil_r].
  unfold bind at 1, modify. unfold bind at 1.
  match goal with |- context [client_steps _ _ ?s0] =>
    destruct (client_steps_run k (steps (client body)) s0) as (s1 & -> & Ht & _)
  end.
  by destruct (raises (client body)).
Qed.

Lemma handle_webhook_tasks (body : WhatsAppWebhookRequest) (s : server) :
  object_ body = WHATSAPP_BUSINESS_ACCOUNT →
  background_tasks (handle_webhook upper body s).2
  = background_tasks s
    ++ left_by_client s body (combined upper (knowledge_dir (env s))).
Proof.
  intros Hobj. unfold handle_webhook.
  rewrite bool_decide_eq_true_2 by done. cbn [negb].
  unfold bind at 1. rewrite in_env_run. cbn [fst snd log modify].
  unfold bind at 1. rewrite in_env_run.
  pose proof (loaded_combined upper
    (World (knowledge_dir (env s)) (utcnow (env s)) (network (env s))
           (posted (env s)) (logged (env s) ++ [(INFO, WebhookReceived (object_ body))])))
    as Hk.
  unfold loaded in Hk. cbn [env set_env knowledge_dir] in Hk |- *. rewrite Hk.
  unfold try_except, bind at 1.
  match goal with |- context [handle_webhook_request _ _ ?s0] =>
    pose proof (handle_webhook_request_run
                  (combined upper (knowledge_dir (env s))) body s0) as Hr;
    destruct (handle_webhook_request body
                (connection_callback (combined upper (knowledge_dir (env s)))) s0)
      as [[[]|e] s1]
  end; cbn [fst snd] in Hr |- *.
  - done.
  - destruct (is_ValueError e); unfold bind; rewrite in_env_run; cbn; by rewrite Hr.
Qed.

End server_facts.

(** C1.  When a webhook POST with the right object type is handled,
    every task the handler schedules is [run_bot] on the accepted
    connection and on the string that [load_knowledge()] returns for
    the disk as it is when the POST arrives.  Neither the global that
    was set at startup nor what is on disk when the client calls back
    enters: the callback, run in any later state of the server,
    schedules the bot with the string it captured.  The prompt of the
    bot so started is built from that string. *)
Theorem handle_webhook_passes_loaded_knowledge (upper : str → str)
    (body : WhatsAppWebhookRequest) (s : server) :
  object_ body = WHATSAPP_BUSINESS_ACCOUNT →
  ∃ k, loaded upper (env s) = Return k
  ∧ background_tasks (handle_webhook upper body s).2
    = background_tasks s ++ left_by_client s body k
  ∧ (∀ t, t ∈ left_by_client s body k →
       ∃ connection, t = RunBot connection k
       ∧ ∀ key hook, prompt_of (run_task key hook t)
                     = Some (RULES_BEFORE ++ or_else k NO_KNOWLEDGE ++ nl))
  ∧ (∀ connection later,
       (connection_callback k connection later).1 = Return tt
       ∧ background_tasks (connection_callback k connection later).2
         = background_tasks later ++
           match add_task_raises later (RunBot connection k) with
           | None => [RunBot connection k]
           | Some _ => []
           end).
Proof.
  intros Hobj. exists (combined upper (knowledge_dir (env s))).
  split; [apply loaded_combined|]. split; [by apply handle_webhook_tasks|]. split.
  - intros t Ht.
    assert (∃ connection, t = RunBot connection (combined upper (knowledge_dir (env s))))
      as [connection ->].
    { revert Ht. unfold left_by_client. destruct (whatsapp_client s) as [client|];
        [|by intros ?%elem_of_nil].
      induction (steps (client body)) as [|[c|n] todo IH]; cbn [scheduled].
      - by intros ?%elem_of_nil.
      - destruct (add_task_raises s _); [done|].
        intros [->|?]%elem_of_cons; eauto.
      - done. }
    exists connection. split; [done|]. intros key hook. cbn [run_task].
    destruct (run_bot_built key hook connection
                (Some (combined upper (knowledge_dir (env s))))) as (b & -> & Hp & _).
    cbn. by rewrite Hp.
  - intros connection later.
    by destruct (connection_callback_run
                   (combined upper (knowledge_dir (env s))) connection later)
      as (s' & -> & Ht & _).
Qed.

Lemma handle_webhook_passes_loaded_knowledge_witness :
  knowledge_context running = lit "--- FEES ---" ++ nl ++ lit "fees of January"
  ∧ background_tasks (handle_webhook ascii_upper call_webhook running).2
    = [RunBot caller (lit "--- FEES ---" ++ nl ++ lit "fees of February")]
  ∧ loaded ascii_upper (env (handle_webhook ascii_upper call_webhook running).2)
    = Return (lit "--- FEES ---" ++ nl ++ lit "fees of March").
Proof.
  destruct (handle_webhook_passes_loaded_knowledge ascii_upper call_webhook running
              eq_refl) as (k & Hk & Htasks & _).
  split; [vm_compute; reflexivity|]. split.
  - rewrite Htasks.
    assert (k = lit "--- FEES ---" ++ nl ++ lit "fees of February") as ->.
    { vm_compute in Hk. injection Hk as <-. vm_compute. reflexivity. }
    vm_compute. reflexivity.
  - vm_compute. reflexivity.
Defined.

(** C3.  A webhook POST whose object type is not
    [whatsapp_business_account] is answered with status 400.  The
    handler raises before anything else: the client library is not
    called, no task is scheduled, and the server is left as it was. *)
Theorem handle_webhook_rejects_object (upper : str → str)
    (body : WhatsAppWebhookRequest) (s : server) :
  object_ body ≠ lit "whatsapp_business_account" →
  handle_webhook upper body s = (Raise (HTTPException 400 (lit "Invalid object type")), s)
  ∧ (post_root upper body s).1
    = Return {| status_code := 400;
                content_json := [(lit "detail", lit "Invalid object type")] |}
  ∧ client_calls (post_root upper body s).2 = client_calls s
  ∧ background_tasks (post_root upper body s).2 = []
  ∧ env (post_root upper body s).2 = env s.
Proof.
  intros Hobj.
  assert (handle_webhook upper body
          = raise (HTTPException 400 (lit "Invalid object type"))) as Hh.
  { unfold handle_webhook. by rewrite bool_decide_eq_false_2. }
  split; [by rewrite Hh|].
  unfold post_root. by rewrite Hh.
Qed.

Lemma handle_webhook_rejects_object_witness :
  (post_root ascii_upper page_webhook running).1
  = Return {| status_code := 400;
              content_json := [(lit "detail", lit "Invalid object type")] |}
  ∧ client_calls (post_root ascii_upper page_webhook running).2 = []
  ∧ background_tasks (post_root ascii_upper page_webhook running).2 = [].
Proof.
  destruct (handle_webhook_rejects_object ascii_upper page_webhook running)
    as (_ & Hresp & Hcalls & Htasks & _).
  - discriminate.
  - split; [exact Hresp|]. split; [|exact Htasks].
    rewrite Hcalls. vm_compute. reflexivity.
Defined.

(** ** More on the knowledge loader *)

Section loader_effects.
Variable upper : str → str.

Lemma load_file_world name acc w :
  (load_file upper name acc w).2
  = World (knowledge_dir w) (utcnow w) (network w) (posted w)
          (logged w ++ file_log (knowledge_dir w) name).
Proof.
  unfold load_file, try_except, bind, read_text_m, file_log.
  destruct (read_text (knowledge_dir w) name) as [e|text]; cbn.
  - done.
  - destruct (truthy (strip text)); cbn; [done|].
    rewrite app_nil_r. by destruct w.
Qed.

Lemma for_each_load_file_world names acc w :
  (for_each names (load_file upper) acc w).2
  = World (knowledge_dir w) (utcnow w) (network w) (posted w)
          (logged w ++ concat (file_log (knowledge_dir w) <$> names)).
Proof.
  revert acc w. induction names as [|name names IH]; intros acc w.
  - cbn. rewrite app_nil_r. by destruct w.
  - cbn [for_each]. unfold bind.
    pose proof (load_file_world name acc w) as Hw.
    destruct (load_file_run upper name acc w) as (w1 & E & _).
    rewrite E in Hw |- *. cbn [snd] in Hw. subst w1.
    rewrite IH. cbn. by rewrite <-(assoc_L (++)).
Qed.

(** A load leaves the world as it was, but for the lines it logs. *)
Lemma load_knowledge_world w :
  (load_knowledge upper w).2
  = World (knowledge_dir w) (utcnow w) (network w) (posted w)
          (logged w ++ load_log upper (knowledge_dir w)).
Proof.
  unfold load_knowledge, load_log, closing_log, combined, kept.
  unfold bind at 1, gets.
  pose proof (for_each_load_file_world (sorted (glob_md (knowledge_dir w))) [] w) as Hw.
  destruct (for_each_load_file upper (sorted (glob_md (knowledge_dir w))) [] w)
    as (w1 & E & _).
  rewrite E in Hw. cbn [snd app] in Hw. subst w1.
  destruct (knowledge_dir w) as [| |files] eqn:Hdir; cbn [exists_ negb].
  - change (sorted (glob_md Missing)) with (@nil str).
    cbn. by rewrite Hdir.
  - unfold bind at 1. rewrite E.
    change (sorted (glob_md NotADirectory)) with (@nil str).
    cbn. by rewrite app_nil_r.
  - unfold bind at 1. rewrite E. cbn [app].
    destruct (omap _ _) as [|p docs]; cbn.
    + by rewrite <-(assoc_L (++)).
    + by rewrite <-(assoc_L (++)), !length_fmap.
Qed.

End loader_effects.

Section kept_more.

Lemma kept_contribution (n : fs_node) (p : str * str) :
  p ∈ kept n → contribution n p.1 = Some p.
Proof.
  unfold kept. rewrite list_elem_of_omap. intros (name & _ & Hc).
  by rewrite (contribution_name _ _ _ Hc).
Qed.

(** Two nodes with the same kept files, whatever else they hold. *)
Lemma kept_ext (n1 n2 : fs_node) :
  (∀ p, p ∈ kept n1 ↔ p ∈ kept n2) → kept n1 = kept n2.
Proof.
  intros Hsame.
  assert (∀ n, NoDup (kept n)) as Hnodup.
  { intros n. apply (NoDup_fmap_1 fst), kept_NoDup. }
  assert (∀ n, StronglySorted (λ p q : str * str, str_le p.1 q.1) (kept n)) as Hsorted.
  { intros n. pose proof (kept_sorted n) as Hs.
    induction (kept n) as [|p l IH]; [constructor|].
    rewrite fmap_cons in Hs.
    apply StronglySorted_inv in Hs as [Hs Hp]. constructor; [by apply IH|].
    rewrite Forall_fmap in Hp. eapply Forall_impl; [exact Hp|done]. }
  apply (StronglySorted_unique_strong (λ p q : str * str, str_le p.1 q.1));
    [|apply Hsorted|apply Hsorted|by apply NoDup_Permutation].
  intros p q Hp Hq Hpq Hqp.
  assert (p.1 = q.1) as Hname by by apply (anti_symm str_le).
  apply Hsame, kept_contribution in Hp. apply kept_contribution in Hq.
  rewrite Hname, Hq in Hp. by injection Hp.
Qed.

Lemma kept_nil_iff (n : fs_node) : kept n = [] ↔ yields_nothing n.
Proof.
  split.
  - intros Hk. destruct n as [| |files]; [done|done|].
    intros name e Hm Hf. destruct e as [text|e]; [|done]. cbn.
    destruct (strip text) as [|c rest] eqn:Hs; [done|]. exfalso.
    assert ((name, strip text) ∈ kept (Directory files)) as Hin.
    { apply kept_elem. split; [done|]. exists text. by rewrite Hs. }
    rewrite Hk in Hin. by apply elem_of_nil in Hin.
  - intros Hn. destruct n as [| |files]; [done|done|].
    apply elem_of_nil_inv. intros [name content] Hin.
    apply kept_elem in Hin as (Hm & text & Hf & -> & Hne).
    apply Hne. apply (Hn _ _ Hm Hf).
Qed.

Lemma join_cons_nonempty (sep x : str) (xs : list str) :
  x ≠ [] → join sep (x :: xs) ≠ [].
Proof.
  intros Hx. destruct xs as [|y xs]; cbn; [done|].
  intros [? _]%app_eq_nil. done.
Qed.

Lemma block_nonempty upper p : block upper p ≠ [].
Proof. done. Qed.

Lemma combined_nil_iff upper (n : fs_node) : combined upper n = [] ↔ kept n = [].
Proof.
  unfold combined. split; [|by intros ->].
  destruct (kept n) as [|p docs]; [done|].
  intros H. exfalso. revert H. rewrite fmap_cons.
  apply join_cons_nonempty, block_nonempty.
Qed.

(** A member of a joined list lies in the result as it is. *)
Lemma join_elem (sep x : str) (xs : list str) :
  x ∈ xs → ∃ before after, join sep xs = before ++ x ++ after.
Proof.
  induction xs as [|y xs IH]; [by intros ?%elem_of_nil|].
  intros [->|Hin]%elem_of_cons.
  - exists []. destruct xs as [|z xs]; cbn.
    + exists []. by rewrite app_nil_r.
    + by eexists.
  - destruct (IH Hin) as (before & after & E).
    destruct xs as [|z xs]; [by apply elem_of_nil in Hin|].
    exists (y ++ sep ++ before), after.
    change (join sep (y :: z :: xs)) with (y ++ sep ++ join sep (z :: xs)).
    rewrite E. by rewrite <-!(assoc_L (++)).
Qed.

End kept_more.

Lemma elem_of_concat {A} (x : A) (ls : list (list A)) :
  x ∈ concat ls ↔ ∃ l, l ∈ ls ∧ x ∈ l.
Proof.
  induction ls as [|l ls IH]; cbn.
  - split; [by intros ?%elem_of_nil | by intros (l & ?%elem_of_nil & _)].
  - rewrite elem_of_app, IH. split.
    + intros [Hx|(l' & Hl' & Hx)]; [exists l | exists l']; split; try done.
      * by left.
      * by right.
    + intros (l' & [->|Hl']%elem_of_cons & Hx); [by left|]. right. eauto.
Qed.

(** X1.  A load reads and logs, nothing else: the knowledge directory,
    the clock, the network and the requests made so far are what they
    were, the log has only grown, and a second load right after the
    first returns the same string. *)
Theorem load_knowledge_reads_only (upper : str → str) (w : world) :
  let w' := (load_knowledge upper w).2 in
  knowledge_dir w' = knowledge_dir w
  ∧ utcnow w' = utcnow w
  ∧ network w' = network w
  ∧ posted w' = posted w
  ∧ logged w `prefix_of` logged w'
  ∧ loaded upper w' = loaded upper w.
Proof.
  intros w'. subst w'. rewrite load_knowledge_world. cbn.
  repeat split; [by apply prefix_app_r|].
  by rewrite !loaded_combined.
Qed.

(** X2.  In a directory, the lines [Failed to read] that a load logs
    are exactly the [*.md] entries that cannot be read, each with its
    exception. *)
Theorem load_knowledge_reports_failures (upper : str → str) (w : world)
    (files : gmap str dir_entry) (name : str) (e : exn) :
  let before := set_knowledge_dir (Directory files) w in
  ∃ added, logged (load_knowledge upper before).2 = logged w ++ added
  ∧ ((ERROR, FailedToRead name e) ∈ added
     ↔ matches_md name = true ∧ files !! name = Some (Unreadable e)).
Proof.
  intros before. exists (load_log upper (Directory files)).
  split; [subst before; by rewrite load_knowledge_world|].
  unfold load_log. rewrite elem_of_app, list_elem_of_singleton, elem_of_concat.
  split.
  - intros [(l & Hl & Hin)|Hclose].
    + apply list_elem_of_fmap in Hl as (x & -> & Hx).
      apply sorted_elem, glob_md_elem in Hx as [Hm [d Hd]].
      revert Hin. unfold file_log, read_text. rewrite Hd.
      destruct d as [text|e'].
      * destruct (truthy (strip text)); [|by intros ?%elem_of_nil].
        by intros [=]%list_elem_of_singleton.
      * by intros [= -> ->]%list_elem_of_singleton.
    + exfalso. revert Hclose. unfold closing_log. cbn [exists_].
      by destruct (kept (Directory files)).
  - intros [Hm Hf]. left. exists [(ERROR, FailedToRead name e)]. split.
    + apply list_elem_of_fmap. exists name. split.
      * unfold file_log, read_text. by rewrite Hf.
      * apply sorted_elem, glob_md_elem. by rewrite Hf.
    + by apply list_elem_of_singleton.
Qed.

(** X3.  The last line a load logs tells how it went: a warning when
    the string returned is empty (the directory is missing, or no
    document came out of it), otherwise an info line with the number
    of kept files and the length of the string returned. *)
Theorem load_knowledge_closing_line (upper : str → str) (w : world) :
  ∃ out, loaded upper w = Return out
  ∧ last (logged (load_knowledge upper w).2)
    = Some match out with
           | [] => (WARNING,
                    if exists_ (knowledge_dir w) then NoKnowledgeDocs
                    else KnowledgeDirNotFound)
           | _ => (INFO, LoadedDocs (length (kept (knowledge_dir w))) (length out))
           end.
Proof.
  exists (combined upper (knowledge_dir w)). split; [apply loaded_combined|].
  rewrite load_knowledge_world. cbn [logged]. unfold load_log.
  rewrite (assoc_L (++)), last_snoc. f_equal. unfold closing_log.
  destruct (combined upper (knowledge_dir w)) as [|c out] eqn:Hc.
  - apply combined_nil_iff in Hc. rewrite Hc. by destruct (exists_ _).
  - destruct (kept (knowledge_dir w)) as [|p docs] eqn:Hk.
    + apply (combined_nil_iff upper) in Hk. congruence.
    + destruct (knowledge_dir w); [done|..]; by rewrite <-Hc.
Qed.

(** X4.  The string returned is empty exactly when no document comes
    out of the knowledge directory; otherwise it starts with the
    header of the first kept file. *)
Theorem load_knowledge_empty_iff (upper : str → str) (w : world) (n : fs_node) :
  (loaded upper (set_knowledge_dir n w) = Return [] ↔ yields_nothing n)
  ∧ (¬ yields_nothing n →
     ∃ out, loaded upper (set_knowledge_dir n w) = Return (lit "--- " ++ out)).
Proof.
  rewrite loaded_combined. cbn [knowledge_dir set_knowledge_dir]. split.
  - rewrite <-kept_nil_iff, <-(combined_nil_iff upper). split; [by intros [=]|by intros ->].
  - rewrite <-kept_nil_iff. unfold combined.
    destruct (kept n) as [|p [|q docs]]; [done|..]; intros _; eexists; reflexivity.
Qed.

Lemma load_knowledge_empty_iff_witness :
  ∃ out, loaded ascii_upper (disk (fees (lit "fees of March")))
         = Return (lit "--- " ++ out).
Proof.
  apply (load_knowledge_empty_iff ascii_upper (disk Missing)
           (fees (lit "fees of March"))).
  intros Hn.
  specialize (Hn (lit "fees.md") (Readable (lit "fees of March")) eq_refl eq_refl).
  discriminate Hn.
Defined.

(** X5.  Every [*.md] file that can be read and is not blank is in the
    string returned: its header, a line feed and its trimmed text
    stand there in one piece. *)
Theorem load_knowledge_contains_document (upper : str → str) (w : world)
    (files : gmap str dir_entry) (name text : str) :
  matches_md name = true →
  files !! name = Some (Readable text) →
  strip text ≠ [] →
  ∃ before after,
    loaded upper (set_knowledge_dir (Directory files) w)
    = Return (before
              ++ (lit "--- " ++ upper (stem name) ++ lit " ---" ++ nl ++ strip text)
              ++ after).
Proof.
  intros Hm Hf Hne. rewrite loaded_combined. cbn [knowledge_dir set_knowledge_dir].
  assert ((name, strip text) ∈ kept (Directory files)) as Hin.
  { apply kept_elem. eauto. }
  destruct (join_elem (nl ++ nl) (block upper (name, strip text))
              (block upper <$> kept (Directory files))) as (before & after & E).
  { apply list_elem_of_fmap. eauto. }
  exists before, after. unfold combined. rewrite E.
  by rewrite <-document_block.
Qed.

Lemma load_knowledge_contains_document_witness :
  ∃ before after,
    loaded ascii_upper (disk (fees (lit " fees of March ")))
    = Return (before ++ (lit "--- FEES ---" ++ nl ++ lit "fees of March") ++ after).
Proof.
  apply (load_knowledge_contains_document ascii_upper (disk Missing)
           {[ lit "fees.md" := Readable (lit " fees of March ") ]}
           (lit "fees.md") (lit " fees of March ")).
  - reflexivity.
  - reflexivity.
  - discriminate.
Defined.

(** X6.  Files whose names do not end in [.md] do not count: adding
    one, changing one or removing one leaves the string returned as it
    was. *)
Theorem load_knowledge_ignores_other_files (upper : str → str) (w : world)
    (files : gmap str dir_entry) (name : str) (e : dir_entry) :
  matches_md name = false →
  loaded upper (set_knowledge_dir (Directory (<[name := e]> files)) w)
  = loaded upper (set_knowledge_dir (Directory files) w)
  ∧ loaded upper (set_knowledge_dir (Directory (delete name files)) w)
    = loaded upper (set_knowledge_dir (Directory files) w).
Proof.
  intros Hm. rewrite !loaded_combined. cbn [knowledge_dir set_knowledge_dir].
  unfold combined.
  assert (∀ other, matches_md other = true → other ≠ name) as Hother.
  { intros other Ho ->. congruence. }
  split; do 3 f_equal; apply kept_ext; intros [other content];
    rewrite !kept_elem; split; intros (Ho & text & Hf & Hc); (split; [done|]);
    exists text; (split; [|done]).
  - by rewrite lookup_insert_ne in Hf by (symmetry; auto).
  - by rewrite lookup_insert_ne by (symmetry; auto).
  - by rewrite lookup_delete_ne in Hf by (symmetry; auto).
  - by rewrite lookup_delete_ne by (symmetry; auto).
Qed.

Lemma load_knowledge_ignores_other_files_witness :
  let files : gmap str dir_entry :=
    {[ lit "fees.md" := Readable (lit "fees of March") ]} in
  loaded ascii_upper
    (set_knowledge_dir
       (Directory (<[lit "notes.txt" := Readable (lit "draft")]> files)) (disk Missing))
  = loaded ascii_upper (set_knowledge_dir (Directory files) (disk Missing)).
Proof.
  intros files.
  exact (proj1 (load_knowledge_ignores_other_files ascii_upper (disk Missing) files
                  (lit "notes.txt") (Readable (lit "draft")) eq_refl)).
Defined.

(** X7.  White space around a document does not count: two texts with
    the same trimmed form, stored under the same name, give the same
    string. *)
Theorem load_knowledge_ignores_surrounding_space (upper : str → str) (w : world)
    (files : gmap str dir_entry) (name text text' : str) :
  strip text = strip text' →
  loaded upper (set_knowledge_dir (Directory (<[name := Readable text]> files)) w)
  = loaded upper (set_knowledge_dir (Directory (<[name := Readable text']> files)) w).
Proof.
  intros Hs. rewrite !loaded_combined. cbn [knowledge_dir set_knowledge_dir].
  unfold combined. do 3 f_equal. apply kept_ext. intros [other content].
  rewrite !kept_elem.
  assert (∀ t t', strip t = strip t' →
            (∃ x, <[name := Readable t]> files !! other = Some (Readable x)
                  ∧ content = strip x ∧ content ≠ []) →
            ∃ x, <[name := Readable t']> files !! other = Some (Readable x)
                 ∧ content = strip x ∧ content ≠ []) as Hstep.
  { intros t t' Ht (x & Hf & Hc & Hne).
    destruct (decide (name = other)) as [->|Hneq].
    - rewrite lookup_insert_eq in Hf. injection Hf as <-.
      exists t'. rewrite lookup_insert_eq. by rewrite <-Ht.
    - rewrite lookup_insert_ne in Hf by done. exists x.
      by rewrite lookup_insert_ne. }
  split; intros [Ho H]; (split; [done|]); eapply Hstep; eauto.
Qed.

Lemma load_knowledge_ignores_surrounding_space_witness :
  loaded ascii_upper
    (set_knowledge_dir
       (Directory (<[lit "fees.md" := Readable (nl ++ lit "fees of March  " ++ nl)]> ∅))
       (disk Missing))
  = loaded ascii_upper
      (set_knowledge_dir
         (Directory (<[lit "fees.md" := Readable (lit "fees of March")]> ∅))
         (disk Missing)).
Proof.
  exact (load_knowledge_ignores_surrounding_space ascii_upper (disk Missing) ∅
           (lit "fees.md") (nl ++ lit "fees of March  " ++ nl) (lit "fees of March")
           eq_refl).
Defined.

(** ** More on the call-summary notifier *)

(** X8.  With a destination configured, an answer whose body can be
    read is logged and nothing more: status 200 as an info line, any
    other status as a warning with the status and the body.  The call
    returns in both cases and the request is not sent again. *)
Theorem send_call_summary_logs_answer (destination : str)
    (md : gmap str pyval) (w : world) (status : Z) (body : str) :
  destination ≠ [] →
  network w (call_ended_request destination
               (dict_get md (lit "connected_at"))
               (dict_get md (lit "disconnected_at")))
  = Response status (inr body) →
  let after := send_call_summary destination md w in
  after.1 = Return tt
  ∧ logged after.2
    = logged w ++ [ if (status =? 200)%Z then (INFO, SummarySent 200)
                    else (WARNING, HookReturned status body) ]
  ∧ length (posted after.2) = S (length (posted w)).
Proof.
  intros Hne Hanswer after. subst after.
  destruct (send_call_summary_posts destination md w Hne) as (entry & -> & ->).
  rewrite Hanswer. cbn. split; [done|]. split.
  - destruct (Z.eqb_spec status 200) as [->|]; done.
  - rewrite length_app. cbn. lia.
Qed.

Lemma send_call_summary_logs_answer_witness :
  let answering (status : Z) : world :=
    World Missing [] (λ _, Response status (inr (lit "Workflow not active"))) [] [] in
  logged (send_call_summary (lit "http://n8n/hook") ∅ (answering 200%Z)).2
  = [(INFO, SummarySent 200)]
  ∧ logged (send_call_summary (lit "http://n8n/hook") ∅ (answering 404%Z)).2
    = [(WARNING, HookReturned 404 (lit "Workflow not active"))].
Proof.
  intros answering. split.
  - apply (send_call_summary_logs_answer (lit "http://n8n/hook") ∅ (answering 200%Z)
             200%Z (lit "Workflow not active")); [discriminate | reflexivity].
  - apply (send_call_summary_logs_answer (lit "http://n8n/hook") ∅ (answering 404%Z)
             404%Z (lit "Workflow not active")); [discriminate | reflexivity].
Defined.

(** X9.  Only two keys of the call metadata are read: two dictionaries
    that agree on [connected_at] and [disconnected_at] make
    [send_call_summary] do the same thing, whatever else they hold. *)
Theorem send_call_summary_reads_two_keys (destination : str)
    (md md' : gmap str pyval) (w : world) :
  md !! lit "connected_at" = md' !! lit "connected_at" →
  md !! lit "disconnected_at" = md' !! lit "disconnected_at" →
  send_call_summary destination md w = send_call_summary destination md' w.
Proof.
  intros Hc Hd. unfold send_call_summary, dict_get. by rewrite Hc, Hd.
Qed.

Lemma send_call_summary_reads_two_keys_witness :
  send_call_summary (lit "http://n8n/hook")
    {[ lit "connected_at" := PyStr (lit "2026-01-01T10:00:00+00:00");
       lit "caller" := PyStr (lit "+91 141 000000") ]} unreachable
  = send_call_summary (lit "http://n8n/hook")
      {[ lit "connected_at" := PyStr (lit "2026-01-01T10:00:00+00:00") ]} unreachable.
Proof.
  apply (send_call_summary_reads_two_keys (lit "http://n8n/hook")
           {[ lit "connected_at" := PyStr (lit "2026-01-01T10:00:00+00:00");
              lit "caller" := PyStr (lit "+91 141 000000") ]}
           {[ lit "connected_at" := PyStr (lit "2026-01-01T10:00:00+00:00") ]}
           unreachable).
  - vm_compute. reflexivity.
  - vm_compute. reflexivity.
Defined.

(** X10.  One call of [send_call_summary] writes exactly one log line
    and makes at most one request; the knowledge directory, the clock
    and the requests made before are left as they were.  Nothing is
    tried a second time. *)
Theorem send_call_summary_once (destination : str)
    (md : gmap str pyval) (w : world) :
  let after := (send_call_summary destination md w).2 in
  (∃ entry, logged after = logged w ++ [entry])
  ∧ (∃ requests, posted after = posted w ++ requests ∧ length requests ≤ 1)
  ∧ knowledge_dir after = knowledge_dir w
  ∧ utcnow after = utcnow w
  ∧ network after = network w.
Proof.
  intros after. subst after.
  destruct (decide (destination = [])) as [->|Hne].
  - rewrite send_call_summary_unset. cbn.
    split; [by eexists|]. split; [|done].
    exists []. rewrite app_nil_r. split; [done | cbn; lia].
  - destruct (send_call_summary_posts destination md w Hne) as (entry & -> & _).
    cbn. split; [by eexists|]. split; [|done].
    eexists. split; [done|]. cbn. lia.
Qed.

(** ** More on the bot *)

Section handlers_facts.
Variable hook : str.
Variable b : bot.
Hypothesis registered :
  handlers b = [ (lit "on_client_connected", on_connected);
                 (lit "on_client_disconnected", on_disconnected hook) ].

Lemma emit_connected_run (c : call) :
  emit b (lit "on_client_connected") c
  = (Return tt,
     Call (<[lit "connected_at" := PyStr (utcnow (outside c))]> (call_metadata c))
          (queued c ++ [LLMRunFrame]) (cancelled c)
          (log INFO CallConnected (outside c)).2).
Proof using registered. unfold emit. by rewrite registered. Qed.

Lemma emit_disconnected_run (c : call) :
  ∃ w, emit b (lit "on_client_disconnected") c
       = (Return tt, set_outside w (ready_to_notify c))
       ∧ knowledge_dir w = knowledge_dir (outside c)
       ∧ (hook = [] → posted w = posted (outside c))
       ∧ (hook ≠ [] →
          posted w = posted (outside c) ++
                     [call_ended_request hook
                        (dict_get (call_metadata c) (lit "connected_at"))
                        (PyStr (utcnow (outside c)))]).
Proof using registered.
  rewrite (emit_disconnected b hook c registered).
  unfold bind, on_disconnected. rewrite on_disconnected_with_run.
  unfold outward, zoom.
  pose proof (send_call_summary_returns hook (call_metadata (ready_to_notify c))
                (outside (ready_to_notify c))) as Hret.
  destruct (send_call_summary hook (call_metadata (ready_to_notify c))
              (outside (ready_to_notify c))) as [r w] eqn:E.
  cbn in Hret. subst r. exists w. split; [done|].
  change w with (Return tt, w).2. rewrite <-E. split; [|split].
  - destruct (decide (hook = [])) as [->|Hne]; [done|].
    by destruct (send_call_summary_posts hook (call_metadata (ready_to_notify c))
                   (outside (ready_to_notify c)) Hne) as (entry & -> & _).
  - by intros ->.
  - intros Hne.
    destruct (send_call_summary_posts hook (call_metadata (ready_to_notify c))
                (outside (ready_to_notify c)) Hne) as (entry & -> & _).
    cbn. unfold dict_get. by rewrite lookup_insert_eq, lookup_insert_ne.
Qed.

End handlers_facts.

(** X11.  On a connect event the handler that [run_bot] registered
    records the time in [connected_at], logs the connection and queues
    exactly one [LLMRunFrame]; it returns, cancels nothing and sends
    nothing. *)
Theorem on_connected_starts_conversation (GOOGLE_API_KEY : option str)
    (N8N_CALL_HOOK_URL : str) (connection : SmallWebRTCConnection)
    (knowledge : option str) (c : call) :
  ∃ b, run_bot GOOGLE_API_KEY N8N_CALL_HOOK_URL connection knowledge = inr b
  ∧ let after := emit b (lit "on_client_connected") c in
    after.1 = Return tt
    ∧ queued after.2 = queued c ++ [LLMRunFrame]
    ∧ call_metadata after.2
      = <[lit "connected_at" := PyStr (utcnow (outside c))]> (call_metadata c)
    ∧ cancelled after.2 = cancelled c
    ∧ posted (outside after.2) = posted (outside c)
    ∧ logged (outside after.2) = logged (outside c) ++ [(INFO, CallConnected)].
Proof.
  destruct (run_bot_built GOOGLE_API_KEY N8N_CALL_HOOK_URL connection knowledge)
    as (b & Hb & _ & _ & _ & Hh).
  exists b. split; [done|]. intros after. subst after.
  by rewrite (emit_connected_run N8N_CALL_HOOK_URL b Hh c).
Qed.

(** X12.  A call that connects and later disconnects is reported
    once, with both times: with a destination configured, the handlers
    that [run_bot] registered, run from the state in which the call
    starts, leave one request more, carrying the clock reading at the
    connect and the clock reading at the disconnect.  By then the
    metadata holds these two times and nothing else, and the task is
    cancelled. *)
Theorem call_summary_carries_both_times (GOOGLE_API_KEY : option str)
    (N8N_CALL_HOOK_URL : str) (connection : SmallWebRTCConnection)
    (knowledge : option str) (w : world) (later : str) :
  N8N_CALL_HOOK_URL ≠ [] →
  ∃ b, run_bot GOOGLE_API_KEY N8N_CALL_HOOK_URL connection knowledge = inr b
  ∧ let c1 := (emit b (lit "on_client_connected") (start_call b w)).2 in
    let c2 := (emit b (lit "on_client_disconnected")
                 (set_outside (set_utcnow later (outside c1)) c1)).2 in
    posted (outside c2)
    = posted w ++ [call_ended_request N8N_CALL_HOOK_URL
                     (PyStr (utcnow w)) (PyStr later)]
    ∧ call_metadata c2
      = {[ lit "connected_at" := PyStr (utcnow w);
           lit "disconnected_at" := PyStr later ]}
    ∧ cancelled c2 = true
    ∧ queued c2 = [LLMRunFrame].
Proof.
  intros Hne.
  pose proof (run_bot_built GOOGLE_API_KEY N8N_CALL_HOOK_URL connection knowledge)
    as (b & Hb & _ & _ & _ & Hh).
  exists b. split; [done|]. intros c1 c2. subst c2 c1.
  rewrite (emit_connected_run N8N_CALL_HOOK_URL b Hh). cbn [snd].
  match goal with |- context [emit b _ ?c] =>
    destruct (emit_disconnected_run N8N_CALL_HOOK_URL b Hh c)
      as (w' & -> & _ & _ & Hposted)
  end.
  specialize (Hposted Hne). cbn in Hposted |- *. rewrite Hposted.
  assert (initial_metadata b
          = {[ lit "connected_at" := PyNone; lit "disconnected_at" := PyNone ]}) as ->.
  { revert Hb. unfold run_bot. rewrite format_AGENT_RULES. by intros [= <-]. }
  split; [|split; [|done]].
  - unfold dict_get. by rewrite lookup_insert_eq.
  - rewrite insert_insert_eq.
    rewrite (insert_insert_ne _ (lit "disconnected_at") (lit "connected_at")) by done.
    by rewrite insert_singleton_eq.
Qed.

Lemma call_summary_carries_both_times_witness :
  ∃ b, run_bot None (lit "http://n8n/hook") caller None = inr b
  ∧ posted (outside
      (emit b (lit "on_client_disconnected")
         (set_outside
            (set_utcnow (lit "2026-01-01T10:07:30+00:00")
               (outside (emit b (lit "on_client_connected") (start_call b unreachable)).2))
            (emit b (lit "on_client_connected") (start_call b unreachable)).2)).2)
    = [call_ended_request (lit "http://n8n/hook")
         (PyStr (lit "2026-01-01T10:05:00+00:00"))
         (PyStr (lit "2026-01-01T10:07:30+00:00"))].
Proof.
  destruct (call_summary_carries_both_times None (lit "http://n8n/hook") caller None
              unreachable (lit "2026-01-01T10:07:30+00:00"))
    as (b & Hb & Hposted & _).
  - discriminate.
  - exists b. split; [exact Hb|]. exact Hposted.
Defined.

(** X13.  A call that is hung up before it ever connected is still
    reported: the request carries [None] as its connection time and
    the clock reading at the disconnect. *)
Theorem call_summary_without_connect (GOOGLE_API_KEY : option str)
    (N8N_CALL_HOOK_URL : str) (connection : SmallWebRTCConnection)
    (knowledge : option str) (w : world) :
  N8N_CALL_HOOK_URL ≠ [] →
  ∃ b, run_bot GOOGLE_API_KEY N8N_CALL_HOOK_URL connection knowledge = inr b
  ∧ let c := (emit b (lit "on_client_disconnected") (start_call b w)).2 in
    posted (outside c)
    = posted w ++ [call_ended_request N8N_CALL_HOOK_URL PyNone (PyStr (utcnow w))]
    ∧ queued c = []
    ∧ cancelled c = true.
Proof.
  intros Hne.
  pose proof (run_bot_built GOOGLE_API_KEY N8N_CALL_HOOK_URL connection knowledge)
    as (b & Hb & _ & _ & _ & Hh).
  exists b. split; [done|]. intros c. subst c.
  destruct (emit_disconnected_run N8N_CALL_HOOK_URL b Hh (start_call b w))
    as (w' & -> & _ & _ & Hposted).
  specialize (Hposted Hne). cbn in Hposted |- *. rewrite Hposted.
  assert (initial_metadata b
          = {[ lit "connected_at" := PyNone; lit "disconnected_at" := PyNone ]}) as ->.
  { revert Hb. unfold run_bot. rewrite format_AGENT_RULES. by intros [= <-]. }
  done.
Qed.

Lemma call_summary_without_connect_witness :
  ∃ b, run_bot None (lit "http://n8n/hook") caller None = inr b
  ∧ posted (outside (emit b (lit "on_client_disconnected") (start_call b unreachable)).2)
    = [call_ended_request (lit "http://n8n/hook") PyNone
         (PyStr (lit "2026-01-01T10:05:00+00:00"))].
Proof.
  destruct (call_summary_without_connect None (lit "http://n8n/hook") caller None
              unreachable) as (b & Hb & Hposted & _).
  - discriminate.
  - exists b. split; [exact Hb|]. exact Hposted.
Defined.

(** ** More on the webhook server *)

Section server_more.
Variable upper : str → str.

Lemma connection_callback_keeps (k : str) (connection : SmallWebRTCConnection) (s : server) :
  knowledge_context (connection_callback k connection s).2 = knowledge_context s.
Proof.
  unfold connection_callback, add_task, disconnect.
  unfold try_except, bind. rewrite !in_env_run.
  unfold gets, modify, ret, raise, log. cbn.
  destruct (add_task_raises s (RunBot connection k)) as [e|]; cbn; [|done].
  by destruct (disconnect_raises connection).
Qed.

Lemma client_steps_keeps (k : str) (todo : list client_step) (s : server) :
  knowledge_context (client_steps (connection_callback k) todo s).2 = knowledge_context s.
Proof.
  revert s. induction todo as [|[connection|n] todo IH]; intros s; [done|..].
  - cbn [client_steps]. unfold bind at 1.
    pose proof (connection_callback_keeps k connection s) as Hk.
    destruct (connection_callback_run k connection s) as (s1 & E & _).
    rewrite E in Hk |- *. cbn [snd] in Hk. by rewrite IH.
  - cbn [client_steps]. unfold bind at 1, modify. by rewrite IH.
Qed.

(** What the client's call comes to, and what it leaves of the globals. *)
Lemma handle_webhook_request_outcome (k : str) (body : WhatsAppWebhookRequest) (s : server) :
  let after := handle_webhook_request body (connection_callback k) s in
  after.1 = match whatsapp_client s with
            | None => Raise (OtherException
                (lit "'NoneType' object has no attribute 'handle_webhook_request'"))
            | Some behaviour =>
                match raises (behaviour body) with
                | None => Return tt
                | Some e => Raise e
                end
            end
  ∧ knowledge_context after.2 = knowledge_context s
  ∧ whatsapp_client after.2 = whatsapp_client s
  ∧ add_task_raises after.2 = add_task_raises s
  ∧ client_calls after.2
    = client_calls s ++ match whatsapp_client s with Some _ => [body] | None => [] end.
Proof.
  intros after. destruct after as [r s'] eqn:E. subst after. cbn [fst snd].
  revert E. unfold handle_webhook_request, bind at 1, gets.
  destruct (whatsapp_client s) as [client|] eqn:Hclient.
  2:{ unfold raise. intros [= <- <-]. by rewrite app_nil_r. }
  unfold bind at 1, modify. unfold bind at 1.
  match goal with |- context [client_steps _ _ ?s0] =>
    pose proof (client_steps_keeps k (steps (client body)) s0) as Hk;
    destruct (client_steps_run k (steps (client body)) s0)
      as (s1 & E & _ & Ha & Hc & Hl)
  end.
  rewrite E in Hk |- *. cbn in Hk, Ha, Hc, Hl.
  destruct (raises (client body)); intros [= <- <-]; by rewrite Hclient in Hc.
Qed.

Lemma handle_webhook_outcome (body : WhatsAppWebhookRequest) (s : server) :
  object_ body = WHATSAPP_BUSINESS_ACCOUNT →
  let after := handle_webhook upper body s in
  after.1 = webhook_outcome (whatsapp_client s) body
  ∧ knowledge_context after.2 = knowledge_context s
  ∧ whatsapp_client after.2 = whatsapp_client s
  ∧ add_task_raises after.2 = add_task_raises s
  ∧ client_calls after.2
    = client_calls s ++ match whatsapp_client s with Some _ => [body] | None => [] end.
Proof.
  intros Hobj after. destruct after as [r s'] eqn:E. subst after. cbn [fst snd].
  revert E. unfold handle_webhook, webhook_outcome.
  rewrite bool_decide_eq_true_2 by done. cbn [negb].
  unfold bind at 1. rewrite in_env_run. cbn [fst snd log modify].
  unfold bind at 1. rewrite in_env_run.
  match goal with |- context [load_knowledge upper ?w0] =>
    pose proof (loaded_combined upper w0) as Hk; unfold loaded in Hk;
    destruct (load_knowledge upper w0) as [r0 w1]
  end.
  cbn [fst snd] in Hk |- *. subst r0.
  unfold try_except, bind at 1.
  match goal with |- context [handle_webhook_request _ (connection_callback ?k) ?s0] =>
    pose proof (handle_webhook_request_outcome k body s0) as (Hr & Hkc & Hwc & Hat & Hcc);
    destruct (handle_webhook_request body (connection_callback k) s0) as [r1 s1]
  end.
  cbn [fst snd set_env knowledge_context whatsapp_client add_task_raises client_calls]
    in Hr, Hkc, Hwc, Hat, Hcc. subst r1.
  destruct (whatsapp_client s) as [client|]; [destruct (raises (client body)) as [e|]|].
  - destruct (is_ValueError e); unfold bind; rewrite in_env_run;
      unfold log, modify, raise; cbn [fst snd]; intros [= <- <-]; done.
  - by intros [= <- <-].
  - cbn [is_ValueError]. unfold bind; rewrite in_env_run;
      unfold log, modify, raise; cbn [fst snd]; intros [= <- <-].
    rewrite app_nil_r in Hcc |- *. done.
Qed.

End server_more.

(** X14.  For a request of the right object type, how [handle_webhook]
    ends is decided by the client library alone: it returns
    [{status: success}] when the client returns, raises 400 with the
    client's own message when the client raises a [ValueError], and
    raises 500 [Internal error] for every other exception, as it does
    when no client was ever set.  The handler lets no other exception
    out, and it calls the client once. *)
Theorem handle_webhook_outcomes (upper : str → str)
    (body : WhatsAppWebhookRequest) (s : server) :
  object_ body = lit "whatsapp_business_account" →
  (handle_webhook upper body s).1
  = match whatsapp_client s with
    | None => Raise (HTTPException 500 (lit "Internal error"))
    | Some behaviour =>
        match raises (behaviour body) with
        | None => Return [(lit "status", lit "success")]
        | Some (ValueError msg) => Raise (HTTPException 400 msg)
        | Some _ => Raise (HTTPException 500 (lit "Internal error"))
        end
    end
  ∧ client_calls (handle_webhook upper body s).2
    = client_calls s ++ match whatsapp_client s with Some _ => [body] | None => [] end.
Proof.
  intros Hobj.
  destruct (handle_webhook_outcome upper body s Hobj) as (Hr & _ & _ & _ & Hc).
  split; [|exact Hc]. rewrite Hr. unfold webhook_outcome.
  destruct (whatsapp_client s) as [client|]; [|done].
  by destruct (raises (client body)) as [[msg|status detail|msg]|].
Qed.

Lemma handle_webhook_outcomes_witness :
  (handle_webhook ascii_upper call_webhook running).1
  = Return [(lit "status", lit "success")]
  ∧ client_calls (handle_webhook ascii_upper call_webhook running).2 = [call_webhook].
Proof.
  destruct (handle_webhook_outcomes ascii_upper call_webhook running eq_refl)
    as [Hr Hc].
  split.
  - etrans; [exact Hr|]. vm_compute. reflexivity.
  - etrans; [exact Hc|]. vm_compute. reflexivity.
Defined.

(** X15.  One task per accepted call: when scheduling does not fail,
    handling a request of the right object type adds exactly one
    [run_bot] task for each connection the client accepts, in the
    order of acceptance, all with the string loaded for this
    request. *)
Theorem one_task_per_accepted_call (upper : str → str)
    (body : WhatsAppWebhookRequest) (s : server)
    (client : WhatsAppWebhookRequest → client_run) :
  object_ body = lit "whatsapp_business_account" →
  whatsapp_client s = Some client →
  (∀ t, add_task_raises s t = None) →
  ∃ k, loaded upper (env s) = Return k
  ∧ background_tasks (handle_webhook upper body s).2
    = background_tasks s ++ ((λ c, RunBot c k) <$> accepted (steps (client body)))
  ∧ length (background_tasks (handle_webhook upper body s).2)
    = length (background_tasks s) + length (accepted (steps (client body))).
Proof.
  intros Hobj Hclient Hok. exists (combined upper (knowledge_dir (env s))).
  split; [apply loaded_combined|].
  rewrite (handle_webhook_tasks upper body s Hobj).
  unfold left_by_client. rewrite Hclient.
  assert (∀ todo, scheduled (add_task_raises s) (combined upper (knowledge_dir (env s))) todo
                  = (λ c, RunBot c (combined upper (knowledge_dir (env s)))) <$> accepted todo)
    as ->.
  { induction todo as [|[c|n] todo IH]; cbn; [done| |done].
    by rewrite Hok, IH. }
  split; [done|]. by rewrite length_app, length_fmap.
Qed.

Lemma one_task_per_accepted_call_witness :
  length (background_tasks (handle_webhook ascii_upper call_webhook running).2) = 1.
Proof.
  destruct (one_task_per_accepted_call ascii_upper call_webhook running answering
              eq_refl eq_refl (λ _, eq_refl)) as (k & _ & _ & Hlen).
  exact Hlen.
Defined.

(** X16.  When scheduling the bot fails, the callback logs the failure
    and asks the connection to disconnect; it schedules nothing and
    returns to the client library, also when the disconnect itself
    raises. *)
Theorem connection_callback_setup_failure (k : str)
    (connection : SmallWebRTCConnection) (s : server) (e : exn) :
  add_task_raises s (RunBot connection k) = Some e →
  let after := connection_callback k connection s in
  after.1 = Return tt
  ∧ background_tasks after.2 = background_tasks s
  ∧ hung_up after.2 = hung_up s ++ [connection]
  ∧ logged (env after.2)
    = logged (env s) ++ [ (INFO, AutoAccepted (pc_id connection));
                          (ERROR, FailedToStartBot e) ].
Proof.
  intros Hfail after. subst after.
  unfold connection_callback, add_task, disconnect.
  unfold try_except, bind. rewrite !in_env_run.
  unfold gets, modify, ret, raise, log. cbn. rewrite Hfail. cbn.
  destruct (disconnect_raises connection); cbn; by rewrite <-(assoc_L (++)).
Qed.

Lemma connection_callback_setup_failure_witness :
  let stubborn : SmallWebRTCConnection :=
    {| pc_id := lit "pc-2";
       disconnect_raises := Some (OtherException (lit "already closed")) |} in
  let full : server :=
    Server [] None (λ _, Some (OtherException (lit "out of memory"))) [] [] []
           (disk Missing) in
  (connection_callback (lit "fees") stubborn full).1 = Return tt
  ∧ background_tasks (connection_callback (lit "fees") stubborn full).2 = []
  ∧ hung_up (connection_callback (lit "fees") stubborn full).2 = [stubborn].
Proof.
  intros stubborn full.
  destruct (connection_callback_setup_failure (lit "fees") stubborn full
              (OtherException (lit "out of memory")) eq_refl)
    as (Hr & Ht & Hh & _).
  split; [exact Hr|]. split; [exact Ht|exact Hh].
Defined.

(** X17.  Handling a webhook never writes the module globals: the
    knowledge string loaded at startup stays in [knowledge_context]
    and the client stays as it was, for every request and whatever the
    client library does.  The string loaded for the request lives in
    the callback only. *)
Theorem handle_webhook_keeps_globals (upper : str → str)
    (body : WhatsAppWebhookRequest) (s : server) :
  knowledge_context (handle_webhook upper body s).2 = knowledge_context s
  ∧ whatsapp_client (handle_webhook upper body s).2 = whatsapp_client s.
Proof.
  destruct (decide (object_ body = WHATSAPP_BUSINESS_ACCOUNT)) as [Hobj|Hobj].
  - by destruct (handle_webhook_outcome upper body s Hobj) as (_ & Hk & Hc & _).
  - unfold handle_webhook. by rewrite bool_decide_eq_false_2.
Qed.

(** Startup never raises. *)
Lemma lifespan_startup_run (upper : str → str)
    (client : WhatsAppWebhookRequest → client_run) (s : server) :
  ∃ s', lifespan_startup upper client s = (Return tt, s')
  ∧ knowledge_context s' = combined upper (knowledge_dir (env s))
  ∧ whatsapp_client s' = Some client
  ∧ background_tasks s' = background_tasks s
  ∧ client_calls s' = client_calls s
  ∧ knowledge_dir (env s') = knowledge_dir (env s).
Proof.
  unfold lifespan_startup.
  unfold bind at 1. rewrite in_env_run.
  pose proof (loaded_combined upper (env s)) as Hk.
  pose proof (load_knowledge_world upper (env s)) as Hw.
  unfold loaded in Hk.
  destruct (load_knowledge upper (env s)) as [r w1].
  cbn [fst snd] in Hk, Hw |- *. subst r w1.
  unfold bind, modify. rewrite !in_env_run. cbn.
  eexists. split; [reflexivity|]. done.
Qed.

(** X18.  Startup loads the knowledge once into the global and sets
    the client: after [lifespan] has started, [knowledge_context] is
    the string that [load_knowledge()] returns for the disk at that
    time, the client is in place, and no task is scheduled, no client
    call made. *)
Theorem lifespan_startup_loads (upper : str → str)
    (client : WhatsAppWebhookRequest → client_run) (s : server) :
  let after := lifespan_startup upper client s in
  after.1 = Return tt
  ∧ Return (knowledge_context after.2) = loaded upper (env s)
  ∧ whatsapp_client after.2 = Some client
  ∧ background_tasks after.2 = background_tasks s
  ∧ client_calls after.2 = client_calls s
  ∧ knowledge_dir (env after.2) = knowledge_dir (env s).
Proof.
  intros after. subst after.
  destruct (lifespan_startup_run upper client s) as (s' & -> & Hk & Hc & Ht & Hl & Hd).
  cbn [fst snd]. by rewrite Hk, loaded_combined.
Qed.

(** ** Configuration, verification, startup and cleanup *)

(** X19.  The server starts only when both [WHATSAPP_TOKEN] and
    [WHATSAPP_PHONE_NUMBER_ID] are set to something: a variable that is
    unset or empty counts as missing, and the [ValueError] names
    exactly the missing ones, in this order, separated by a comma. *)
Theorem check_required_names_missing (token phone : option str) :
  check_required token phone
  = match env_truthy token, env_truthy phone with
    | true, true => inr tt
    | false, true =>
        inl (ValueError (lit "Missing required env vars: WHATSAPP_TOKEN"))
    | true, false =>
        inl (ValueError (lit "Missing required env vars: WHATSAPP_PHONE_NUMBER_ID"))
    | false, false =>
        inl (ValueError
               (lit "Missing required env vars: WHATSAPP_TOKEN, WHATSAPP_PHONE_NUMBER_ID"))
    end
  ∧ (check_required token phone = inr tt
     ↔ ∃ t p, token = Some t ∧ phone = Some p ∧ t ≠ [] ∧ p ≠ []).
Proof.
  split.
  - destruct token as [[|c t]|], phone as [[|d p]|]; reflexivity.
  - split.
    + destruct token as [[|c t]|], phone as [[|d p]|]; try discriminate.
      intros _. by exists (c :: t), (d :: p).
    + by intros ([|c t] & [|d p] & -> & -> & Ht & Hp).
Qed.

Section verify_facts.
Context {verified : Type}.
Variable answer : gmap str str → str → exn + verified.
Variable token : str.

Lemma verify_webhook_run (params : gmap str str) (p : process)
    (client : WhatsAppWebhookRequest → client_run) :
  whatsapp_client (srv p) = Some client →
  verify_webhook answer token params p
  = match answer params token with
    | inr result =>
        (Return result,
         Process (srv p) (terminate_raises p) (terminations p)
                 (lifecycle_logged p ++ [(INFO, WebhookVerified)]))
    | inl e =>
        if is_ValueError e then
          (Raise (HTTPException 403 (lit "Verification failed")),
           Process (srv p) (terminate_raises p) (terminations p)
                   (lifecycle_logged p ++ [(WARNING, VerificationFailed e)]))
        else (Raise e, p)
    end.
Proof.
  intros Hclient.
  unfold verify_webhook, try_except_only, client_verify, bind at 1 2, gets.
  rewrite Hclient.
  destruct (answer params token) as [e|result]; cbn.
  - by destruct (is_ValueError e).
  - done.
Qed.

End verify_facts.

(** X20.  With the client in place, webhook verification ends as the
    client library decides: its result is returned as it is; a
    [ValueError] becomes 403 [Verification failed], the reason going to
    the log and not to the caller; any other exception goes through
    unchanged.  The state of the server is not touched. *)
Theorem verify_webhook_outcomes {verified : Type}
    (answer : gmap str str → str → exn + verified) (token : str)
    (params : gmap str str) (p : process)
    (client : WhatsAppWebhookRequest → client_run) :
  whatsapp_client (srv p) = Some client →
  let after := verify_webhook answer token params p in
  after.1 = match answer params token with
            | inr result => Return result
            | inl (ValueError _) => Raise (HTTPException 403 (lit "Verification failed"))
            | inl e => Raise e
            end
  ∧ srv after.2 = srv p
  ∧ lifecycle_logged after.2
    = lifecycle_logged p ++
      match answer params token with
      | inr _ => [(INFO, WebhookVerified)]
      | inl (ValueError msg) => [(WARNING, VerificationFailed (ValueError msg))]
      | inl _ => []
      end.
Proof.
  intros Hclient after. subst after.
  rewrite (verify_webhook_run answer token params p client Hclient).
  destruct (answer params token) as [[msg|status detail|msg]|result]; cbn;
    by rewrite ?app_nil_r.
Qed.

Lemma verify_webhook_outcomes_witness :
  let asked (given : str) : gmap str str :=
    {[ lit "hub.mode" := lit "subscribe";
       lit "hub.verify_token" := given;
       lit "hub.challenge" := lit "1158201444" ]} in
  (verify_webhook echoing (verification_token None) (asked (lit "ifs_verify"))
     serving_process).1
  = Return (lit "1158201444")
  ∧ (verify_webhook echoing (verification_token None) (asked (lit "guess"))
       serving_process).1
    = Raise (HTTPException 403 (lit "Verification failed")).
Proof.
  intros asked. split.
  - etrans.
    + apply (verify_webhook_outcomes echoing (verification_token None)
               (asked (lit "ifs_verify")) serving_process answering).
      vm_compute. reflexivity.
    + vm_compute. reflexivity.
  - etrans.
    + apply (verify_webhook_outcomes echoing (verification_token None)
               (asked (lit "guess")) serving_process answering).
      vm_compute. reflexivity.
    + vm_compute. reflexivity.
Defined.

Section lifespan_facts.
Variable upper : str → str.
Context {A : Type}.

Lemma in_app_run {B} (m : M server B) (p : process) :
  in_app m p = ((m (srv p)).1, set_srv (m (srv p)).2 p).
Proof. unfold in_app, zoom. by destruct (m (srv p)). Qed.

Lemma lifespan_run (client : WhatsAppWebhookRequest → client_run)
    (serving : M process A) (p : process) :
  let started := set_srv (lifespan_startup upper client (srv p)).2 p in
  let served := serving started in
  lifespan upper client serving p
  = match whatsapp_client (srv served.2) with
    | Some _ =>
        match terminate_raises served.2 with
        | Some e =>
            (Raise e, Process (srv served.2) (terminate_raises served.2)
                              (S (terminations served.2)) (lifecycle_logged served.2))
        | None =>
            (served.1, Process (srv served.2) (terminate_raises served.2)
                               (S (terminations served.2))
                               (lifecycle_logged served.2 ++ [(INFO, CleanupDone)]))
        end
    | None =>
        (served.1, Process (srv served.2) (terminate_raises served.2)
                           (terminations served.2)
                           (lifecycle_logged served.2 ++ [(INFO, CleanupDone)]))
    end.
Proof.
  intros started served. subst served started.
  unfold lifespan, bind at 1. rewrite in_app_run.
  destruct (lifespan_startup_run upper client (srv p)) as (s' & -> & _).
  cbn [fst snd]. unfold try_finally.
  destruct (serving (set_srv s' p)) as [r p2]. cbn [fst snd].
  unfold bind at 1 2, gets.
  destruct (whatsapp_client (srv p2)); [|done].
  unfold terminate_all_calls. by destruct (terminate_raises p2).
Qed.

End lifespan_facts.

(** X21.  Leaving [lifespan], however serving ended, by returning or
    by raising: [terminate_all_calls()] is awaited once when the client
    global is set at that moment, and not at all when it is not (the
    guard of line 75).  Startup sets the global, so it is awaited
    exactly once whenever serving left the global as startup set it.
    If the call raises, its exception is what comes out and [Cleanup
    done] is not logged; in every other case the outcome of serving
    comes out as it was and [Cleanup done] is logged. *)
Theorem lifespan_cleans_up {A : Type} (upper : str → str)
    (client : WhatsAppWebhookRequest → client_run)
    (serving : M process A) (p : process) :
  let started := set_srv (lifespan_startup upper client (srv p)).2 p in
  let served := serving started in
  let after := lifespan upper client serving p in
  whatsapp_client (srv started) = Some client
  ∧ terminations after.2
    = match whatsapp_client (srv served.2) with
      | Some _ => S (terminations served.2)
      | None => terminations served.2
      end
  ∧ (whatsapp_client (srv served.2) = whatsapp_client (srv started) →
     terminations after.2 = S (terminations served.2))
  ∧ after.1
    = match whatsapp_client (srv served.2), terminate_raises served.2 with
      | Some _, Some e => Raise e
      | _, _ => served.1
      end
  ∧ lifecycle_logged after.2
    = lifecycle_logged served.2 ++
      match whatsapp_client (srv served.2), terminate_raises served.2 with
      | Some _, Some _ => []
      | _, _ => [(INFO, CleanupDone)]
      end
  ∧ srv after.2 = srv served.2.
Proof.
  intros started served after. subst after.
  assert (whatsapp_client (srv started) = Some client) as Hstarted.
  { subst started.
    by destruct (lifespan_startup_run upper client (srv p)) as (s' & -> & _ & Hc & _). }
  split; [exact Hstarted|].
  rewrite lifespan_run. fold started. fold served.
  split; [|split].
  - destruct (whatsapp_client (srv served.2)); [|done].
    by destruct (terminate_raises served.2).
  - intros Hkept. rewrite Hkept, Hstarted.
    by destruct (terminate_raises served.2).
  - destruct (whatsapp_client (srv served.2)); [|by cbn].
    destruct (terminate_raises served.2); cbn; by rewrite ?app_nil_r.
Qed.

Lemma lifespan_cleans_up_witness :
  let cold : process :=
    Process (Server [] None (λ _, None) [] [] [] (disk (fees (lit "fees of January"))))
            None 0 [] in
  let crashing : M process unit := raise (OtherException (lit "server crashed")) in
  terminations (lifespan ascii_upper answering crashing cold).2 = 1
  ∧ (lifespan ascii_upper answering crashing cold).1
    = Raise (OtherException (lit "server crashed"))
  ∧ lifecycle_logged (lifespan ascii_upper answering crashing cold).2
    = [(INFO, CleanupDone)].
Proof.
  intros cold crashing.
  destruct (lifespan_cleans_up ascii_upper answering crashing cold)
    as (_ & _ & Ht & Hr & Hl & _).
  split; [|split].
  - apply Ht. reflexivity.
  - exact Hr.
  - exact Hl.
Defined.
